(** * The WAQI configuration wizard (custom_components/waqi-test)

    A shallow embedding of [config_flow.py] and [const.py]: the four steps of
    [ConfigFlow] ([async_step_user], [async_step_user_search],
    [async_step_pick_station], [async_step_user_feed]) and the single step of
    [OptionsFlow] ([async_step_init]).

    - Python values are a small tagged union, dictionaries with string keys
      are [gmap string _].
    - A step is a computation in a state-and-exception monad over the flow
      object ([self]): it returns a [FlowResult] or raises.
    - The remote client ([waqi.WAQIClient]) is a variable of the development:
      a constructor from a token to an object with [search] and [feed], each
      returning a value or raising.
    - The host platform (voluptuous schemas, the unique-id registry and the
      flow manager of [homeassistant.data_entry_flow]) is modelled as far as
      the steps call into it.
    - Every step is modelled from its own body.  One expression of the
      search step, the dict display of lines 99-114, is not well-formed
      Python; see [user_search_retry_schema]. *)

From Stdlib Require Import ZArith.
From stdpp Require Import gmap strings list fin_maps.

Local Open Scope string_scope.
Local Open Scope Z_scope.

(** ** Python values *)

Inductive value :=
| VNone
| VBool (b : bool)
| VInt (z : Z)
| VStr (s : string).

#[global] Instance value_eq_dec : EqDecision value.
Proof. solve_decision. Defined.

(** An object returned by [client.feed]: a plain value or a dictionary. *)
Inductive pyobj :=
| PVal (v : value)
| PDict (d : gmap string value).

(** Truth value of an object, as [not x] and [if x] test it. *)
Definition truthy_value (v : value) : bool :=
  match v with
  | VNone => false
  | VBool b => b
  | VInt z => negb (z =? 0)
  | VStr s => negb (bool_decide (s = ""))
  end.

Definition truthy (o : pyobj) : bool :=
  match o with
  | PVal v => truthy_value v
  | PDict d => negb (bool_decide (d = ∅))
  end.

(** ** Exceptions and outcomes *)

Inductive exn :=
| OverQuota                           (* waqi.OverQuota *)
| InvalidToken                        (* waqi.InvalidToken *)
| KeyError (k : value)
| TypeError
| NameError (name : string)
| UnboundLocalError (name : string)
| AttributeError (name : string)
| SyntaxError
| AbortFlow (reason : string)         (* data_entry_flow.AbortFlow *)
| Invalid                             (* voluptuous.Invalid *)
| UnknownStep (step_id : string)        (* data_entry_flow.UnknownStep *)
| UnknownFlow                         (* data_entry_flow.UnknownFlow *)
| OtherException (name : string)      (* any other subclass of Exception *)
| OtherBaseException (name : string). (* BaseException outside Exception *)

#[global] Instance exn_eq_dec : EqDecision exn.
Proof. solve_decision. Defined.

(** [isinstance(e, Exception)]: what [except Exception] catches. *)
Definition is_Exception (e : exn) : bool :=
  match e with
  | OtherBaseException _ => false
  | _ => true
  end.

Inductive result (A : Type) :=
| Ret (a : A)
| Raise (e : exn).
Arguments Ret {A} a.
Arguments Raise {A} e.

(** [d[k]] on a dictionary. *)
Definition getitem {V : Type} (d : gmap string V) (k : string) : result V :=
  match d !! k with
  | Some v => Ret v
  | None => Raise (KeyError (VStr k))
  end.

(** [o[k]] on an arbitrary object with a string subscript. *)
Definition getitem_obj (o : pyobj) (k : string) : result value :=
  match o with
  | PDict d => getitem d k
  | PVal _ => Raise TypeError
  end.

(** ** const.py *)

Definition DOMAIN : string := "waqi-test".
Definition CONF_API_TOKEN : string := "api_token".
Definition CONF_KEYWORD : string := "keyword".
Definition CONF_STATION : string := "station".
Definition CONF_UPDATE_INTERVAL : string := "update_interval".
Definition DEFAULT_UPDATE_INTERVAL : Z := 900.

(** ** Form schemas (voluptuous) *)

Inductive marker := vol_Required | vol_Optional.

Inductive validator :=
| vol_str                                      (* the type [str] *)
| vol_int                                      (* the type [int] *)
| vol_In (container : list value)              (* vol.In over a list *)
| vol_In_dict (container : gmap string string). (* vol.In over a dict: its keys *)

Record field := Field {
  f_marker : marker;
  f_key : string;
  f_default : option value;
  f_validator : validator
}.

Definition check (v : validator) (x : value) : bool :=
  match v, x with
  | vol_str, VStr _ => true
  | vol_int, VInt _ => true
  | vol_int, VBool _ => true
  | vol_In c, x => bool_decide (x ∈ c)
  | vol_In_dict m, VStr s => bool_decide (is_Some (m !! s))
  | _, _ => false
  end.

(** One field of a schema applied to the submitted dictionary [raw]; [acc] is
    the validated output so far.  A key that was not submitted takes the
    field's default (which is validated like a submitted value); without a
    default a required key is an error and an optional key is left out. *)
Definition validate_field (raw : gmap string value) (f : field)
    (acc : gmap string value) : option (gmap string value) :=
  match raw !! f_key f with
  | Some x => if check (f_validator f) x then Some (<[f_key f := x]> acc) else None
  | None =>
      match f_default f with
      | Some x => if check (f_validator f) x then Some (<[f_key f := x]> acc) else None
      | None =>
          match f_marker f with
          | vol_Required => None
          | vol_Optional => Some acc
          end
      end
  end.

Fixpoint validate_fields (raw : gmap string value) (fs : list field)
    (acc : gmap string value) : option (gmap string value) :=
  match fs with
  | [] => Some acc
  | f :: fs' =>
      match validate_field raw f acc with
      | Some acc' => validate_fields raw fs' acc'
      | None => None
      end
  end.

(** [schema(raw)]: extra keys are refused (voluptuous' default), then every
    field is validated.  [None] stands for [vol.Invalid]. *)
Definition validate (schema : list field) (raw : gmap string value)
    : option (gmap string value) :=
  if forallb (fun k => bool_decide (k ∈ map f_key schema)) (map fst (map_to_list raw))
  then validate_fields raw schema ∅
  else None.

(** ** Flow results *)

Inductive FlowResult :=
| async_show_form (step_id : string) (data_schema : list field)
    (errors : gmap string string)
| async_create_entry (title : value) (data : gmap string value)
    (options : option (gmap string value))
| async_abort (reason : string).

(** ** The host's registry of configuration records *)

Record ConfigEntry := {
  entry_unique_id : value;
  entry_title : value;
  entry_data : gmap string value;
  entry_options : gmap string value
}.

(** ** The flow object and its monad *)

Record ConfigFlow := {
  _api_token : option value;
  _stations : option (gmap string string);
  _update_interval : option value;
  unique_id : value;
  hass : list ConfigEntry
}.

Definition M (A : Type) : Type := ConfigFlow → result A * ConfigFlow.

Definition ret {A} (a : A) : M A := fun self => (Ret a, self).
Definition raise {A} (e : exn) : M A := fun self => (Raise e, self).
Definition lift {A} (r : result A) : M A := fun self => (r, self).

Definition bind {A B} (m : M A) (k : A → M B) : M B :=
  fun self =>
    match m self with
    | (Ret a, self') => k a self'
    | (Raise e, self') => (Raise e, self')
    end.

Notation "'let*' x ':=' m 'in' k" := (bind m (fun x => k))
  (at level 10, x pattern, m at level 100, k at level 200).

(** [try: body  except ...: handler  else: orelse].  The handler sees what
    the body raised; what [orelse] raises is not handled. *)
Definition try_except_else {A B} (body : M A) (handler : exn → M B)
    (orelse : A → M B) : M B :=
  fun self =>
    match body self with
    | (Ret a, self') => orelse a self'
    | (Raise e, self') => handler e self'
    end.

(** Reading an instance attribute that may not have been assigned yet. *)
Definition getattr {A} (name : string) (proj : ConfigFlow → option A) : M A :=
  fun self =>
    match proj self with
    | Some a => (Ret a, self)
    | None => (Raise (AttributeError name), self)
    end.

(** Reading a local variable that may not have been bound. *)
Definition local {A} (name : string) (x : option A) : M A :=
  match x with
  | Some a => ret a
  | None => raise (UnboundLocalError name)
  end.

(** Attribute assignments [self._x = v]. *)
Definition set_stations (m : gmap string string) : M unit :=
  fun self =>
    (Ret tt, {| _api_token := _api_token self; _stations := Some m;
                _update_interval := _update_interval self;
                unique_id := unique_id self; hass := hass self |}).

Definition set_api_token (v : value) : M unit :=
  fun self =>
    (Ret tt, {| _api_token := Some v; _stations := _stations self;
                _update_interval := _update_interval self;
                unique_id := unique_id self; hass := hass self |}).

Definition set_update_interval (v : value) : M unit :=
  fun self =>
    (Ret tt, {| _api_token := _api_token self; _stations := _stations self;
                _update_interval := Some v;
                unique_id := unique_id self; hass := hass self |}).

(** ** Host calls made by the steps *)

(** [await self.async_set_unique_id(uid)]: records the candidate unique id
    of the flow.  (Other flows in progress are outside the model.) *)
Definition async_set_unique_id (uid : value) : M unit :=
  fun self =>
    (Ret tt, {| _api_token := _api_token self; _stations := _stations self;
                _update_interval := _update_interval self;
                unique_id := uid; hass := hass self |}).

Definition configured (uid : value) (entries : list ConfigEntry) : bool :=
  existsb (fun e => bool_decide (entry_unique_id e = uid)) entries.

(** [self._abort_if_unique_id_configured()]: nothing when no unique id is
    set; raises [AbortFlow("already_configured")] when an existing record has
    the flow's unique id. *)
Definition _abort_if_unique_id_configured : M unit :=
  fun self =>
    match unique_id self with
    | VNone => (Ret tt, self)
    | uid =>
        if configured uid (hass self)
        then (Raise (AbortFlow "already_configured"), self)
        else (Ret tt, self)
    end.

(** ** The remote station directory client *)

(** One element of a search result: [{"uid": ..., "station": {"name": ...}}]. *)
Record StationResult := {
  sr_uid : string;
  sr_name : string
}.

Record WAQIClient := {
  search : value → result (list StationResult);
  feed : value → result pyobj
}.

(** ** config_flow.py *)

Definition FLOW_FEED : string := "Enter the station ID".
Definition FLOW_SEARCH : string := "Find stations from an area/city name".
Definition FLOW_TYPE : string := "flow_type".

Definition CONFIG_SCHEMA : list field :=
  [ Field vol_Required FLOW_TYPE (Some (VStr FLOW_SEARCH))
      (vol_In [VStr FLOW_SEARCH; VStr FLOW_FEED]) ].

(** The form of the search step when nothing was submitted (lines 65-78). *)
Definition user_search_schema : list field :=
  [ Field vol_Required CONF_API_TOKEN None vol_str;
    Field vol_Required CONF_KEYWORD None vol_str;
    Field vol_Optional CONF_UPDATE_INTERVAL
      (Some (VInt DEFAULT_UPDATE_INTERVAL)) vol_int ].

(** The dict display of lines 99-114, meant to rebuild the search form with
    the submitted values as defaults.  Its brackets do not balance: in
    [vol.Required(CONF_KEYWORD), default=...): str] the call is closed before
    its [default=] argument, and in [default=...), ): int] a second [)] closes
    nothing.  Python has no value for this display; it reports SyntaxError
    (when the module is compiled).  The model charges the error to the one
    branch that evaluates the display. *)
Definition user_search_retry_schema (user_input : gmap string value)
    : result (list field) :=
  Raise SyntaxError.

(** The form of the feed step (lines 195-208). *)
Definition user_feed_schema : list field :=
  [ Field vol_Required CONF_API_TOKEN None vol_str;
    Field vol_Required CONF_STATION None vol_str;
    Field vol_Optional CONF_UPDATE_INTERVAL
      (Some (VInt DEFAULT_UPDATE_INTERVAL)) vol_int ].

(** The loop of lines 118-122: [self._stations[uid] = name] for every result,
    in order; a later result with the same uid overwrites an earlier one. *)
Definition collect_stations (found : list StationResult) : gmap string string :=
  foldl (fun m station => <[sr_uid station := sr_name station]> m) ∅ found.

(** [self._stations[unique_id]]: the keys are strings, any other key is
    absent. *)
Definition stations_getitem (m : gmap string string) (k : value) : result string :=
  match k with
  | VStr s => getitem m s
  | _ => Raise (KeyError k)
  end.

Section Steps.

(** [waqi.WAQIClient(token, session)]. *)
Variable new_client : value → WAQIClient.

Definition async_step_pick_station (user_input : option (gmap string value))
    : M FlowResult :=
  let errors : gmap string string := ∅ in
  match user_input with
  | Some user_input =>
      let* unique_id := lift (getitem user_input CONF_STATION) in
      let* _ := async_set_unique_id unique_id in
      let* _ := _abort_if_unique_id_configured in
      let* stations := getattr "_stations" _stations in
      let* _ := lift (stations_getitem stations unique_id) in
      let* stations := getattr "_stations" _stations in
      let* title := lift (stations_getitem stations unique_id) in
      let* api_token := getattr "_api_token" _api_token in
      let* update_interval := getattr "_update_interval" _update_interval in
      ret (async_create_entry (VStr title) ∅
             (Some (<[CONF_UPDATE_INTERVAL := update_interval]>
                      (<[CONF_API_TOKEN := api_token]> ∅))))
  | None =>
      let* stations := getattr "_stations" _stations in
      ret (async_show_form "pick_station"
             [Field vol_Required CONF_STATION None (vol_In_dict stations)]
             errors)
  end.

(** The [try] statement of the search step (lines 80-93).  It leaves the
    local [found] (unbound after an exception) and [errors]. *)
Definition user_search_try (user_input : gmap string value)
    (errors : gmap string string)
    : M (option (list StationResult) * gmap string string) :=
  try_except_else
    (let* token := lift (getitem user_input CONF_API_TOKEN) in
     let client := new_client token in
     let* keyword := lift (getitem user_input CONF_KEYWORD) in
     let* found := lift (search client keyword) in
     ret (found,
          match found with
          | [] => <[CONF_KEYWORD := "no_matching_stations_found"]> errors
          | _ => errors
          end))
    (fun e =>
       match e with
       | OverQuota => ret (None, <[CONF_API_TOKEN := "api_over_quota"]> errors)
       | InvalidToken => ret (None, <[CONF_API_TOKEN := "api_token_invalid"]> errors)
       | e =>
           if is_Exception e
           then (* errors[CONF_BASE] = "unknown": CONF_BASE is neither
                   defined nor imported in the module *)
                raise (NameError "CONF_BASE")
           else raise e
       end)
    (fun '(found, errors) => ret (Some found, errors)).

Definition async_step_user_search (user_input : option (gmap string value))
    : M FlowResult :=
  let errors : gmap string string := ∅ in
  let blank := ret (async_show_form "user_search" user_search_schema errors) in
  match user_input with
  | None => blank
  | Some user_input =>
      if bool_decide (user_input = ∅) then blank
      else
        let* (found, errors) := user_search_try user_input errors in
        if negb (bool_decide (errors = ∅)) then
          let* schema := lift (user_search_retry_schema user_input) in
          ret (async_show_form "user_search" schema errors)
        else
          let* found := local "found" found in
          let* _ := set_stations (collect_stations found) in
          let* api_token := lift (getitem user_input CONF_API_TOKEN) in
          let* _ := set_api_token api_token in
          let* update_interval := lift (getitem user_input CONF_UPDATE_INTERVAL) in
          let* _ := set_update_interval update_interval in
          async_step_pick_station None
  end.

(** The [try] statement of the feed step (lines 166-184).  Its last handler
    returns from the step ([inl]); the other paths fall through to the
    statement after it ([inr]) with the local [station] (unbound after an
    exception) and [errors]. *)
Definition user_feed_try (user_input : gmap string value)
    (errors : gmap string string)
    : M (FlowResult + (option pyobj * gmap string string)) :=
  try_except_else
    (let* token := lift (getitem user_input CONF_API_TOKEN) in
     let client := new_client token in
     let* station_id := lift (getitem user_input CONF_STATION) in
     let* station := lift (feed client station_id) in
     ret (station,
          if negb (truthy station)
          then <[CONF_STATION := "no_station_feed_found"]> errors
          else errors))
    (fun e =>
       match e with
       | OverQuota =>
           ret (inr (None, <[CONF_API_TOKEN := "api_over_quota"]> errors))
       | InvalidToken =>
           ret (inr (None, <[CONF_API_TOKEN := "api_token_invalid"]> errors))
       | _ => ret (inl (async_abort "unknown"))
       end)
    (fun '(station, errors) =>
       let* unique_id := lift (getitem user_input CONF_STATION) in
       let* _ := async_set_unique_id unique_id in
       let* _ := _abort_if_unique_id_configured in
       ret (inr (Some station, errors))).

Definition async_step_user_feed (user_input : option (gmap string value))
    : M FlowResult :=
  let errors : gmap string string := ∅ in
  match user_input with
  | Some user_input =>
      let* r := user_feed_try user_input errors in
      match r with
      | inl res => ret res
      | inr (station, errors) =>
          let* station := local "station" station in
          let* title := lift (getitem_obj station "uid") in
          let* api_token := lift (getitem user_input CONF_API_TOKEN) in
          let* update_interval := lift (getitem user_input CONF_UPDATE_INTERVAL) in
          ret (async_create_entry title ∅
                 (Some (<[CONF_UPDATE_INTERVAL := update_interval]>
                          (<[CONF_API_TOKEN := api_token]> ∅))))
      end
  | None =>
      ret (async_show_form "user_feed" user_feed_schema errors)
  end.

Definition async_step_user (user_input : option (gmap string value))
    : M FlowResult :=
  let errors : gmap string string := ∅ in
  let form := ret (async_show_form "user" CONFIG_SCHEMA errors) in
  match user_input with
  | Some user_input =>
      let* flow_type := lift (getitem user_input FLOW_TYPE) in
      if bool_decide (flow_type = VStr FLOW_SEARCH) then
        async_step_user_search None
      else
        let* flow_type := lift (getitem user_input FLOW_TYPE) in
        if bool_decide (flow_type = VStr FLOW_FEED) then
          async_step_user_feed None
        else form
  | None => form
  end.

End Steps.

(** ** OptionsFlow *)

Record OptionsFlow := {
  _config_entry : ConfigEntry
}.

Definition async_step_init (self : OptionsFlow)
    (user_input : option (gmap string value)) : FlowResult :=
  let errors : gmap string string := ∅ in
  match user_input with
  | Some user_input => async_create_entry (VStr "") user_input None
  | None =>
      let options := entry_options (_config_entry self) in
      let options_schema :=
        [ Field vol_Required CONF_API_TOKEN None vol_str;
          Field vol_Optional CONF_UPDATE_INTERVAL
            (Some (default (VInt DEFAULT_UPDATE_INTERVAL)
                     (entry_options (_config_entry self) !! CONF_UPDATE_INTERVAL)))
            vol_int ] in
      async_show_form "init" options_schema errors
  end.

(** ** The host's flow manager *)

Section FlowManager.

Variable new_client : value → WAQIClient.

(** [getattr(flow, f"async_step_{step_id}")]. *)
Definition step_method (step_id : string)
    : option (option (gmap string value) → M FlowResult) :=
  if bool_decide (step_id = "user") then Some (async_step_user new_client)
  else if bool_decide (step_id = "user_search") then
    Some (async_step_user_search new_client)
  else if bool_decide (step_id = "pick_station") then
    Some async_step_pick_station
  else if bool_decide (step_id = "user_feed") then
    Some (async_step_user_feed new_client)
  else None.

(** The manager runs a step and turns [AbortFlow] into an abort result;
    any other exception leaves the manager. *)
Definition handle_step (m : M FlowResult) : M FlowResult :=
  fun self =>
    match m self with
    | (Raise (AbortFlow reason), self') => (Ret (async_abort reason), self')
    | r => r
    end.

(** Starting a flow: the first step without input. *)
Definition async_init : M FlowResult :=
  handle_step (async_step_user new_client None).

(** Submitting [raw] to the form [cur] that the flow last showed: the
    submission is validated against the form's schema, then the step of
    that form runs on the validated input. *)
Definition async_configure (cur : FlowResult) (raw : gmap string value)
    : M FlowResult :=
  match cur with
  | async_show_form step_id data_schema _ =>
      match validate data_schema raw with
      | None => raise Invalid
      | Some user_input =>
          match step_method step_id with
          | Some step => handle_step (step (Some user_input))
          | None => raise (UnknownStep step_id)
          end
      end
  | _ => raise UnknownFlow
  end.

End FlowManager.

(** The registry after a step of the setup wizard has finished with [r]: a
    create-entry result adds one record under the flow's unique id. *)
Definition async_finish_flow (r : result FlowResult) (self : ConfigFlow)
    : list ConfigEntry :=
  match r with
  | Ret (async_create_entry title data options) =>
      hass self ++
      [ {| entry_unique_id := unique_id self; entry_title := title;
           entry_data := data; entry_options := default ∅ options |} ]
  | _ => hass self
  end.

(** What the host observes of one managed step: its result and the registry
    afterwards. *)
Definition run_step (m : M FlowResult) (self : ConfigFlow)
    : result FlowResult * list ConfigEntry :=
  let (r, self') := m self in (r, async_finish_flow r self').

(** The station ids under which records are registered. *)
Definition station_ids (entries : list ConfigEntry) : list value :=
  filter (fun v => v ≠ VNone) (map entry_unique_id entries).

Definition at_most_one_per_id (entries : list ConfigEntry) : Prop :=
  NoDup (station_ids entries).

Definition is_form (r : result FlowResult) : bool :=
  match r with
  | Ret (async_show_form _ _ _) => true
  | _ => false
  end.

Definition is_create_entry (r : result FlowResult) : bool :=
  match r with
  | Ret (async_create_entry _ _ _) => true
  | _ => false
  end.

(** [ConfigFlow.async_get_options_flow(config_entry)] with
    [OptionsFlow.__init__]: the options flow keeps the entry it edits. *)
Definition async_get_options_flow (config_entry : ConfigEntry) : OptionsFlow :=
  {| _config_entry := config_entry |}.

(** ** Concrete flows and clients used in examples *)

Definition new_flow (entries : list ConfigEntry) : ConfigFlow :=
  {| _api_token := None; _stations := None; _update_interval := None;
     unique_id := VNone; hass := entries |}.

Definition client_raising (e : exn) : value → WAQIClient :=
  fun _ => {| search := fun _ => Raise e; feed := fun _ => Raise e |}.

Definition client_returning (found : list StationResult) (station : pyobj)
    : value → WAQIClient :=
  fun _ => {| search := fun _ => Ret found; feed := fun _ => Ret station |}.

Definition feed_input (token station : string) (interval : Z)
    : gmap string value :=
  <[CONF_UPDATE_INTERVAL := VInt interval]>
    (<[CONF_STATION := VStr station]> (<[CONF_API_TOKEN := VStr token]> ∅)).

Definition search_input (token keyword : string) (interval : Z)
    : gmap string value :=
  <[CONF_UPDATE_INTERVAL := VInt interval]>
    (<[CONF_KEYWORD := VStr keyword]> (<[CONF_API_TOKEN := VStr token]> ∅)).

(** A submission to the feed form that may leave the interval out. *)
Definition feed_submission (token station : string) (interval : option Z)
    : gmap string value :=
  match interval with
  | Some i => feed_input token station i
  | None => <[CONF_STATION := VStr station]> (<[CONF_API_TOKEN := VStr token]> ∅)
  end.

Definition entry_for (uid : string) : ConfigEntry :=
  {| entry_unique_id := VStr uid; entry_title := VStr uid;
     entry_data := ∅; entry_options := ∅ |}.

(** * Properties *)

(** ** The feed step *)

Ltac run :=
  unfold async_step_user_feed, async_step_user_search, async_step_pick_station,
    async_step_user, user_feed_try, user_search_try, try_except_else, bind, lift,
    ret, raise, local, getattr, getitem_obj, getitem; simpl.

Lemma user_feed_raises new_client ui self token sid e :
  ui !! CONF_API_TOKEN = Some token →
  ui !! CONF_STATION = Some sid →
  feed (new_client token) sid = Raise e →
  async_step_user_feed new_client (Some ui) self =
    match e with
    | OverQuota | InvalidToken => (Raise (UnboundLocalError "station"), self)
    | _ => (Ret (async_abort "unknown"), self)
    end.
Proof.
  intros Ht Hs Hf. run. rewrite Ht, Hs, Hf. by destruct e.
Qed.

(** C4: when the feed call of the DirectFeed step raises anything but
    OverQuota or InvalidToken, the step returns an abort with reason
    "unknown", and the registry of configuration records is unchanged. *)
Theorem user_feed_unknown_failure_aborts new_client ui self token sid e :
  ui !! CONF_API_TOKEN = Some token →
  ui !! CONF_STATION = Some sid →
  feed (new_client token) sid = Raise e →
  e ≠ OverQuota → e ≠ InvalidToken →
  async_step_user_feed new_client (Some ui) self
    = (Ret (async_abort "unknown"), self)
  ∧ run_step (handle_step (async_step_user_feed new_client (Some ui))) self
    = (Ret (async_abort "unknown"), hass self).
Proof.
  intros Ht Hs Hf Hq Hi.
  assert (async_step_user_feed new_client (Some ui) self
          = (Ret (async_abort "unknown"), self)) as Heq.
  { rewrite (user_feed_raises _ _ _ _ _ _ Ht Hs Hf). by destruct e. }
  split; [done|]. unfold run_step, handle_step. by rewrite Heq.
Qed.

Lemma user_feed_unknown_failure_aborts_witness :
  async_step_user_feed (client_raising (OtherException "TimeoutError"))
    (Some (feed_input "T" "5000" 900)) (new_flow [])
    = (Ret (async_abort "unknown"), new_flow [])
  ∧ run_step (handle_step (async_step_user_feed
                (client_raising (OtherException "TimeoutError"))
                (Some (feed_input "T" "5000" 900)))) (new_flow [])
    = (Ret (async_abort "unknown"), []).
Proof.
  apply (user_feed_unknown_failure_aborts
           (client_raising (OtherException "TimeoutError"))
           (feed_input "T" "5000" 900) (new_flow []) (VStr "T") (VStr "5000")
           (OtherException "TimeoutError")); done.
Defined.

Lemma user_feed_falsy new_client ui self token sid station :
  ui !! CONF_API_TOKEN = Some token →
  ui !! CONF_STATION = Some sid →
  feed (new_client token) sid = Ret station →
  truthy station = false →
  is_form (async_step_user_feed new_client (Some ui) self).1 = false
  ∧ is_create_entry (async_step_user_feed new_client (Some ui) self).1 = false.
Proof.
  intros Ht Hs Hf Hfalsy. run. rewrite Ht, Hs, Hf. simpl.
  unfold async_set_unique_id, _abort_if_unique_id_configured. simpl.
  destruct station as [v|d]; simpl in *.
  - repeat case_match; simplify_eq; done.
  - apply negb_false_iff, bool_decide_eq_true in Hfalsy. subst d.
    destruct sid; simpl; try destruct (configured _ _); simpl;
      rewrite ?lookup_empty; done.
Qed.

Lemma user_feed_falsy_configured new_client ui self token sid station :
  ui !! CONF_API_TOKEN = Some token →
  ui !! CONF_STATION = Some (VStr sid) →
  feed (new_client token) (VStr sid) = Ret station →
  configured (VStr sid) (hass self) = true →
  (handle_step (async_step_user_feed new_client (Some ui)) self).1
    = Ret (async_abort "already_configured").
Proof.
  intros Ht Hs Hf Hc. unfold handle_step. run.
  unfold async_set_unique_id, _abort_if_unique_id_configured. simpl.
  by rewrite Ht, Hs, Hf, Hc.
Qed.

(** C1: on the paths where the feed call raises OverQuota or InvalidToken, or
    returns an empty feed, the DirectFeed step does not show its form again.
    It records the error in [errors] and then falls through to the
    create-entry statement, which reads the feed's "uid": after an
    exception the local [station] is unbound, and an empty feed has no "uid",
    so the step raises (no form, no record).  With an empty feed the
    unique-id check still runs, so a station that is already configured
    aborts the flow. *)
Theorem user_feed_error_paths_fall_through new_client ui self token sid :
  ui !! CONF_API_TOKEN = Some token →
  ui !! CONF_STATION = Some (VStr sid) →
  (∀ e, feed (new_client token) (VStr sid) = Raise e →
        e = OverQuota ∨ e = InvalidToken →
        (∃ msg, user_feed_try new_client ui ∅ self
                  = (Ret (inr (None, {[CONF_API_TOKEN := msg]})), self))
        ∧ async_step_user_feed new_client (Some ui) self
          = (Raise (UnboundLocalError "station"), self))
  ∧ (∀ station, feed (new_client token) (VStr sid) = Ret station →
        truthy station = false →
        is_form (async_step_user_feed new_client (Some ui) self).1 = false
        ∧ is_create_entry (async_step_user_feed new_client (Some ui) self).1
          = false
        ∧ (configured (VStr sid) (hass self) = true →
           (handle_step (async_step_user_feed new_client (Some ui)) self).1
             = Ret (async_abort "already_configured"))).
Proof.
  intros Ht Hs. split.
  - intros e Hf He. split.
    + unfold user_feed_try, try_except_else, bind, lift, getitem. simpl.
      rewrite Ht, Hs, Hf. destruct He as [-> | ->]; eexists; reflexivity.
    + rewrite (user_feed_raises _ _ _ _ _ _ Ht Hs Hf).
      by destruct He as [-> | ->].
  - intros station Hf Hfalsy.
    destruct (user_feed_falsy _ _ self _ _ _ Ht Hs Hf Hfalsy) as [Hform Hentry].
    split; [done|]. split; [done|].
    by apply (user_feed_falsy_configured _ _ _ _ _ _ Ht Hs Hf).
Qed.

Lemma user_feed_error_paths_fall_through_witness :
  async_step_user_feed (client_raising OverQuota)
      (Some (feed_input "T" "5000" 900)) (new_flow [])
    = (Raise (UnboundLocalError "station"), new_flow [])
  ∧ is_form (async_step_user_feed (client_returning [] (PDict ∅))
               (Some (feed_input "T" "5000" 900)) (new_flow [])).1 = false.
Proof.
  split.
  - destruct (user_feed_error_paths_fall_through (client_raising OverQuota)
                (feed_input "T" "5000" 900) (new_flow []) (VStr "T") "5000"
                eq_refl eq_refl) as [Hraise _].
    apply (Hraise OverQuota); [reflexivity | by left].
  - destruct (user_feed_error_paths_fall_through
                (client_returning [] (PDict ∅))
                (feed_input "T" "5000" 900) (new_flow []) (VStr "T") "5000"
                eq_refl eq_refl) as [_ Hfalsy].
    apply (Hfalsy (PDict ∅)); reflexivity.
Defined.

Example user_feed_empty_feed_raises :
  (async_step_user_feed (client_returning [] (PDict ∅))
     (Some (feed_input "T" "5000" 900)) (new_flow [])).1
    = Raise (KeyError (VStr "uid"))
  ∧ (async_step_user_feed (client_returning [] (PVal VNone))
       (Some (feed_input "T" "5000" 900)) (new_flow [])).1
    = Raise TypeError.
Proof. split; vm_compute; reflexivity. Qed.

(** ** The search step *)

Lemma user_search_raises new_client ui self token keyword e :
  ui ≠ ∅ →
  ui !! CONF_API_TOKEN = Some token →
  ui !! CONF_KEYWORD = Some keyword →
  search (new_client token) keyword = Raise e →
  async_step_user_search new_client (Some ui) self =
    match e with
    | OverQuota | InvalidToken => (Raise SyntaxError, self)
    | _ => if is_Exception e then (Raise (NameError "CONF_BASE"), self)
           else (Raise e, self)
    end.
Proof.
  intros Hne Ht Hk Hs. run. rewrite bool_decide_eq_false_2 by done.
  rewrite Ht, Hk, Hs. by destruct e.
Qed.

(** C2: when the search call raises OverQuota, the step records
    "api_over_quota" under the token field and nothing else, but the form
    with the submitted values as defaults is not produced: the dict display
    that should build its schema (lines 99-114) is not well-formed. *)
Theorem user_search_over_quota_no_retry_form
    new_client ui self token keyword :
  ui !! CONF_API_TOKEN = Some token →
  ui !! CONF_KEYWORD = Some keyword →
  search (new_client token) keyword = Raise OverQuota →
  user_search_try new_client ui ∅ self
    = (Ret (None, {[CONF_API_TOKEN := "api_over_quota"]}), self)
  ∧ async_step_user_search new_client (Some ui) self = (Raise SyntaxError, self).
Proof.
  intros Ht Hk Hs. split.
  - unfold user_search_try, try_except_else, bind, lift, getitem. simpl.
    by rewrite Ht, Hk, Hs.
  - assert (ui ≠ ∅) as Hne by (intros ->; by rewrite lookup_empty in Ht).
    by rewrite (user_search_raises _ _ self _ _ _ Hne Ht Hk Hs).
Qed.

Lemma user_search_over_quota_no_retry_form_witness :
  user_search_try (client_raising OverQuota) (search_input "T" "paris" 600) ∅
      (new_flow [])
    = (Ret (None, {[CONF_API_TOKEN := "api_over_quota"]}), new_flow [])
  ∧ async_step_user_search (client_raising OverQuota)
      (Some (search_input "T" "paris" 600)) (new_flow [])
    = (Raise SyntaxError, new_flow []).
Proof.
  apply (user_search_over_quota_no_retry_form (client_raising OverQuota)
           (search_input "T" "paris" 600) (new_flow []) (VStr "T") (VStr "paris"));
    reflexivity.
Defined.

(** C3: when the search call raises an exception other than OverQuota and
    InvalidToken, the handler assigns to [errors[CONF_BASE]]; the name
    CONF_BASE is not bound in the module, so the step raises NameError and no
    form with a base-level error is returned. *)
Theorem user_search_unknown_failure_name_error
    new_client ui self token keyword e :
  ui !! CONF_API_TOKEN = Some token →
  ui !! CONF_KEYWORD = Some keyword →
  search (new_client token) keyword = Raise e →
  e ≠ OverQuota → e ≠ InvalidToken →
  is_Exception e = true →
  async_step_user_search new_client (Some ui) self
    = (Raise (NameError "CONF_BASE"), self).
Proof.
  intros Ht Hk Hs Hq Hi He.
  assert (ui ≠ ∅) as Hne by (intros ->; by rewrite lookup_empty in Ht).
  rewrite (user_search_raises _ _ self _ _ _ Hne Ht Hk Hs).
  rewrite He. by destruct e.
Qed.

Lemma user_search_unknown_failure_name_error_witness :
  async_step_user_search (client_raising (OtherException "TimeoutError"))
      (Some (search_input "T" "paris" 600)) (new_flow [])
    = (Raise (NameError "CONF_BASE"), new_flow []).
Proof.
  apply (user_search_unknown_failure_name_error
           (client_raising (OtherException "TimeoutError"))
           (search_input "T" "paris" 600) (new_flow []) (VStr "T") (VStr "paris")
           (OtherException "TimeoutError")); done.
Defined.

(** ** Uniqueness of station ids *)


Lemma configured_elem_of uid entries :
  configured uid entries = true ↔ uid ∈ map entry_unique_id entries.
Proof.
  unfold configured. rewrite existsb_exists, list_elem_of_fmap.
  split.
  - intros (e & Hin & He). apply bool_decide_eq_true in He.
    exists e. split; [done | by apply list_elem_of_In].
  - intros (e & -> & Hin). exists e. split; [by apply list_elem_of_In |].
    by apply bool_decide_eq_true.
Qed.

Ltac crush :=
  run; unfold async_set_unique_id, _abort_if_unique_id_configured,
    set_stations, set_api_token, set_update_interval, stations_getitem,
    user_search_retry_schema, getitem;
  simpl; intros;
  repeat (case_match; unfold ret, raise in *; simplify_eq; simpl in * );
  try done.

Lemma pick_station_hass input self :
  hass (async_step_pick_station input self).2 = hass self.
Proof. crush. Qed.

Lemma user_feed_hass new_client input self :
  hass (async_step_user_feed new_client input self).2 = hass self.
Proof. crush. Qed.

Lemma user_search_hass new_client input self :
  hass (async_step_user_search new_client input self).2 = hass self.
Proof. crush. Qed.

Lemma user_hass new_client input self :
  hass (async_step_user new_client input self).2 = hass self.
Proof. crush. Qed.

Lemma pick_station_entry input self title data options self' :
  async_step_pick_station input self
    = (Ret (async_create_entry title data options), self') →
  unique_id self' ≠ VNone ∧ configured (unique_id self') (hass self) = false.
Proof. crush. Qed.

Lemma user_feed_entry new_client input self title data options self' :
  async_step_user_feed new_client input self
    = (Ret (async_create_entry title data options), self') →
  unique_id self' = VNone ∨ configured (unique_id self') (hass self) = false.
Proof. crush; auto. Qed.

Lemma user_search_no_entry new_client input self :
  is_create_entry (async_step_user_search new_client input self).1 = false.
Proof. crush. Qed.

Lemma user_no_entry new_client input self :
  is_create_entry (async_step_user new_client input self).1 = false.
Proof. crush. Qed.

Lemma handle_step_hass m self :
  hass (handle_step m self).2 = hass (m self).2.
Proof. unfold handle_step. by repeat case_match. Qed.

Lemma handle_step_entry m self title data options self' :
  handle_step m self = (Ret (async_create_entry title data options), self') →
  m self = (Ret (async_create_entry title data options), self').
Proof. unfold handle_step. repeat case_match; naive_solver. Qed.

Lemma at_most_one_add entries e :
  at_most_one_per_id entries →
  entry_unique_id e = VNone ∨ configured (entry_unique_id e) entries = false →
  at_most_one_per_id (entries ++ [e]).
Proof.
  unfold at_most_one_per_id, station_ids. intros Hnd He.
  rewrite map_app, filter_app. simpl.
  destruct (decide (entry_unique_id e = VNone)) as [Hn|Hn].
  - rewrite filter_cons_False by naive_solver. by rewrite filter_nil, app_nil_r.
  - rewrite filter_cons_True by done. rewrite filter_nil.
    apply NoDup_app. split; [done|]. split; [|apply NoDup_singleton].
    intros x Hx Hx'. apply list_elem_of_singleton in Hx'. subst x.
    apply list_elem_of_filter in Hx as [_ Hx].
    apply configured_elem_of in Hx. destruct He; congruence.
Qed.

Lemma run_step_at_most_one m self :
  hass (m self).2 = hass self →
  (∀ title data options self',
     m self = (Ret (async_create_entry title data options), self') →
     unique_id self' = VNone ∨ configured (unique_id self') (hass self) = false) →
  at_most_one_per_id (hass self) →
  at_most_one_per_id (run_step (handle_step m) self).2.
Proof.
  intros Hh He Hnd. unfold run_step.
  pose proof (handle_step_hass m self) as Hh'.
  destruct (handle_step m self) as [r self'] eqn:Hm. simpl in *.
  rewrite Hh in Hh'.
  destruct r as [[| title data options |]|]; simpl; rewrite ?Hh'; try done.
  apply handle_step_entry in Hm. apply He in Hm.
  apply at_most_one_add; simpl; by rewrite ?Hh'.
Qed.

(** C5: submitting a station id that an existing record already has as its
    unique id aborts with "already_configured" and leaves the registry as it
    was, both in the pick-station step and in the feed step after a
    successful fetch; and every step of the wizard keeps the registry free of
    two records with the same station id. *)
Theorem already_configured_aborts new_client :
  (∀ self ui sid,
     VStr sid ∈ map entry_unique_id (hass self) →
     ui !! CONF_STATION = Some (VStr sid) →
     run_step (handle_step (async_step_pick_station (Some ui))) self
       = (Ret (async_abort "already_configured"), hass self))
  ∧ (∀ self ui sid token station,
     VStr sid ∈ map entry_unique_id (hass self) →
     ui !! CONF_STATION = Some (VStr sid) →
     ui !! CONF_API_TOKEN = Some token →
     feed (new_client token) (VStr sid) = Ret station →
     run_step (handle_step (async_step_user_feed new_client (Some ui))) self
       = (Ret (async_abort "already_configured"), hass self))
  ∧ (∀ step_id step input self,
     step_method new_client step_id = Some step →
     at_most_one_per_id (hass self) →
     at_most_one_per_id (run_step (handle_step (step input)) self).2).
Proof.
  split; [|split].
  - intros self ui sid Hin Hs. apply configured_elem_of in Hin.
    unfold run_step, handle_step. run.
    unfold async_set_unique_id, _abort_if_unique_id_configured. simpl.
    by rewrite Hs, Hin.
  - intros self ui sid token station Hin Hs Ht Hf. apply configured_elem_of in Hin.
    unfold run_step, handle_step. run.
    unfold async_set_unique_id, _abort_if_unique_id_configured. simpl.
    by rewrite Ht, Hs, Hf, Hin.
  - intros step_id step input self Hstep Hnd. unfold step_method in Hstep.
    repeat case_match; simplify_eq; apply run_step_at_most_one; try done.
    + apply user_hass.
    + intros ???? Heq. pose proof (user_no_entry new_client input self) as H'.
      by rewrite Heq in H'.
    + apply user_search_hass.
    + intros ???? Heq. pose proof (user_search_no_entry new_client input self) as H'.
      by rewrite Heq in H'.
    + apply pick_station_hass.
    + intros ???? Heq. right. by eapply pick_station_entry.
    + apply user_feed_hass.
    + intros ???? Heq. by eapply user_feed_entry.
Qed.

Lemma already_configured_aborts_witness :
  run_step (handle_step
              (async_step_pick_station (Some {[CONF_STATION := VStr "5000"]})))
      (new_flow [entry_for "5000"])
    = (Ret (async_abort "already_configured"), [entry_for "5000"])
  ∧ run_step (handle_step (async_step_user_feed
                (client_returning [] (PDict {["uid" := VStr "5000"]}))
                (Some (feed_input "T" "5000" 900))))
      (new_flow [entry_for "5000"])
    = (Ret (async_abort "already_configured"), [entry_for "5000"])
  ∧ at_most_one_per_id
      (run_step (handle_step (async_step_user_feed
                   (client_returning [] (PDict {["uid" := VStr "5000"]}))
                   (Some (feed_input "T" "5000" 900))))
         (new_flow [entry_for "7"])).2.
Proof.
  pose proof (already_configured_aborts
                (client_returning [] (PDict {["uid" := VStr "5000"]})))
    as (Hpick & Hfeed & Hinv).
  split; [|split].
  - apply (Hpick (new_flow [entry_for "5000"]) _ "5000"); [|done].
    apply list_elem_of_here.
  - apply (Hfeed (new_flow [entry_for "5000"]) _ "5000" (VStr "T")
             (PDict {["uid" := VStr "5000"]})); try done.
    apply list_elem_of_here.
  - apply (Hinv "user_feed" _ _ (new_flow [entry_for "7"])); [done|].
    apply NoDup_singleton.
Defined.

(** ** The search path: from results to the created record *)

Lemma collect_stations_snoc found st :
  collect_stations (found ++ [st])
    = <[sr_uid st := sr_name st]> (collect_stations found).
Proof. unfold collect_stations. by rewrite foldl_app. Qed.

Lemma collect_stations_dom found :
  dom (collect_stations found) = list_to_set (map sr_uid found).
Proof.
  induction found as [|st found IH] using rev_ind; [apply dom_empty_L|].
  rewrite collect_stations_snoc, dom_insert_L, IH, map_app, list_to_set_app_L.
  simpl. rewrite union_empty_r_L. apply (comm_L (∪)).
Qed.

Lemma collect_stations_size found :
  NoDup (map sr_uid found) → size (collect_stations found) = length found.
Proof.
  intros Hnd. rewrite <- size_dom, collect_stations_dom.
  rewrite size_list_to_set by done. apply length_map.
Qed.

Lemma collect_stations_lookup found st :
  NoDup (map sr_uid found) → st ∈ found →
  collect_stations found !! sr_uid st = Some (sr_name st).
Proof.
  induction found as [|x found IH] using rev_ind; intros Hnd Hin.
  - by apply not_elem_of_nil in Hin.
  - rewrite collect_stations_snoc. rewrite map_app in Hnd.
    apply NoDup_app in Hnd as (Hnd & Hx & _).
    apply elem_of_app in Hin as [Hin|Hin].
    + rewrite lookup_insert_ne; [by apply IH|].
      intros Heq. apply (Hx (sr_uid st)).
      * apply list_elem_of_fmap. eauto.
      * rewrite <- Heq. apply list_elem_of_here.
    + apply list_elem_of_singleton in Hin. subst x. apply lookup_insert_eq.
Qed.

Lemma collect_stations_key found sid name :
  collect_stations found !! sid = Some name →
  ∃ st, st ∈ found ∧ sr_uid st = sid ∧ sr_name st = name.
Proof.
  induction found as [|x found IH] using rev_ind.
  - unfold collect_stations. simpl. by rewrite lookup_empty.
  - rewrite collect_stations_snoc.
    destruct (decide (sr_uid x = sid)) as [<-|Hne].
    + rewrite lookup_insert_eq. intros [= <-]. exists x.
      split; [|done]. apply elem_of_app. right. apply list_elem_of_here.
    + rewrite lookup_insert_ne by done. intros (st & ? & ? & ?)%IH.
      exists st. split; [|done]. apply elem_of_app. by left.
Qed.

Lemma user_search_found new_client ui self token keyword interval found :
  ui !! CONF_API_TOKEN = Some token →
  ui !! CONF_KEYWORD = Some keyword →
  ui !! CONF_UPDATE_INTERVAL = Some interval →
  search (new_client token) keyword = Ret found →
  found ≠ [] →
  async_step_user_search new_client (Some ui) self
    = (Ret (async_show_form "pick_station"
              [Field vol_Required CONF_STATION None
                 (vol_In_dict (collect_stations found))] ∅),
       {| _api_token := Some token;
          _stations := Some (collect_stations found);
          _update_interval := Some interval;
          unique_id := unique_id self; hass := hass self |}).
Proof.
  intros Ht Hk Hi Hs Hne. run.
  rewrite bool_decide_eq_false_2 by (intros ->; by rewrite lookup_empty in Ht).
  rewrite Ht, Hk, Hs. destruct found as [|st found]; [done|]. simpl.
  rewrite bool_decide_eq_true_2 by done. simpl. by rewrite Hi.
Qed.

Lemma pick_station_creates self ui sid name token interval stations :
  ui !! CONF_STATION = Some (VStr sid) →
  _stations self = Some stations →
  stations !! sid = Some name →
  _api_token self = Some token →
  _update_interval self = Some interval →
  configured (VStr sid) (hass self) = false →
  async_step_pick_station (Some ui) self
    = (Ret (async_create_entry (VStr name) ∅
              (Some (<[CONF_UPDATE_INTERVAL := interval]>
                       (<[CONF_API_TOKEN := token]> ∅)))),
       {| _api_token := _api_token self; _stations := _stations self;
          _update_interval := _update_interval self;
          unique_id := VStr sid; hass := hass self |}).
Proof.
  intros Hs Hst Hn Ht Hi Hc. run.
  unfold async_set_unique_id, _abort_if_unique_id_configured, stations_getitem,
    getitem. simpl.
  rewrite Hs. simpl. rewrite Hc. simpl. rewrite Hst. simpl.
  rewrite Hn. simpl. by rewrite Ht, Hi.
Qed.

Lemma not_configured uid entries :
  uid ∉ map entry_unique_id entries → configured uid entries = false.
Proof.
  intros Hn. destruct (configured uid entries) eqn:Hc; [|done].
  by apply configured_elem_of in Hc.
Qed.

(** C6 (amended): when the search call returns N > 0 results with pairwise
    distinct station ids, the search step shows the pick-station form whose
    selectable mapping has exactly N entries, one per result, from the
    station id to the display name; submitting one of these ids that is not
    yet configured creates a record titled with the station's display name,
    with empty data and with the token and the interval of the search
    submission as options. *)
Theorem search_then_pick_creates_entry
    new_client self ui token keyword interval found :
  ui !! CONF_API_TOKEN = Some token →
  ui !! CONF_KEYWORD = Some keyword →
  ui !! CONF_UPDATE_INTERVAL = Some interval →
  search (new_client token) keyword = Ret found →
  found ≠ [] →
  NoDup (map sr_uid found) →
  ∃ stations self',
    async_step_user_search new_client (Some ui) self
      = (Ret (async_show_form "pick_station"
                [Field vol_Required CONF_STATION None (vol_In_dict stations)] ∅),
         self')
    ∧ size stations = length found
    ∧ (∀ sid name,
         stations !! sid = Some name
         ↔ ∃ st, st ∈ found ∧ sr_uid st = sid ∧ sr_name st = name)
    ∧ (∀ pick sid name,
         pick !! CONF_STATION = Some (VStr sid) →
         stations !! sid = Some name →
         VStr sid ∉ map entry_unique_id (hass self) →
         run_step (handle_step (async_step_pick_station (Some pick))) self'
           = (Ret (async_create_entry (VStr name) ∅
                     (Some {[CONF_API_TOKEN := token;
                             CONF_UPDATE_INTERVAL := interval]})),
              (hass self ++
               [ {| entry_unique_id := VStr sid; entry_title := VStr name;
                    entry_data := ∅;
                    entry_options := {[CONF_API_TOKEN := token;
                                       CONF_UPDATE_INTERVAL := interval]} |} ])%list)).
Proof.
  intros Ht Hk Hi Hs Hne Hnd.
  eexists (collect_stations found), _. split; [|split; [|split]].
  - by apply (user_search_found _ _ _ _ _ _ _ Ht Hk Hi Hs).
  - by apply collect_stations_size.
  - intros sid name. split; [apply collect_stations_key|].
    intros (st & Hin & <- & <-). by apply collect_stations_lookup.
  - intros pick sid name Hp Hl Hc. apply not_configured in Hc.
    unfold run_step, handle_step.
    erewrite pick_station_creates; eauto.
Qed.

Lemma search_then_pick_creates_entry_witness :
  ∃ stations self',
    async_step_user_search
        (client_returning [ {| sr_uid := "A1"; sr_name := "Paris Center" |} ]
           (PVal VNone))
        (Some (search_input "T" "paris" 600)) (new_flow [])
      = (Ret (async_show_form "pick_station"
                [Field vol_Required CONF_STATION None (vol_In_dict stations)] ∅),
         self')
    ∧ stations = {["A1" := "Paris Center"]}
    ∧ run_step (handle_step (async_step_pick_station
                               (Some {[CONF_STATION := VStr "A1"]}))) self'
      = (Ret (async_create_entry (VStr "Paris Center") ∅
                (Some {[CONF_API_TOKEN := VStr "T";
                        CONF_UPDATE_INTERVAL := VInt 600]})),
         [ {| entry_unique_id := VStr "A1"; entry_title := VStr "Paris Center";
              entry_data := ∅;
              entry_options := {[CONF_API_TOKEN := VStr "T";
                                 CONF_UPDATE_INTERVAL := VInt 600]} |} ]).
Proof.
  destruct (search_then_pick_creates_entry
              (client_returning [ {| sr_uid := "A1"; sr_name := "Paris Center" |} ]
                 (PVal VNone))
              (new_flow []) (search_input "T" "paris" 600)
              (VStr "T") (VStr "paris") (VInt 600)
              [ {| sr_uid := "A1"; sr_name := "Paris Center" |} ])
    as (stations & self' & Hform & Hsize & Hkeys & Hpick); try done.
  { apply NoDup_singleton. }
  exists stations, self'. split; [done|].
  assert (stations = {["A1" := "Paris Center"]}) as ->.
  { vm_compute in Hform. by injection Hform as <- _. }
  split; [done|].
  apply (Hpick _ "A1" "Paris Center"); [done|done|].
  apply not_elem_of_nil.
Defined.

(** C6 as stated fails when two results carry the same station id: the
    mapping keeps one entry for that id (with the name of the later
    result), so two results give one selectable entry. *)
Lemma search_duplicate_uid_counterexample :
  async_step_user_search
      (client_returning [ {| sr_uid := "A1"; sr_name := "Paris Center" |};
                          {| sr_uid := "A1"; sr_name := "Paris Nord" |} ]
         (PVal VNone))
      (Some (search_input "T" "paris" 600)) (new_flow [])
    = (Ret (async_show_form "pick_station"
              [Field vol_Required CONF_STATION None
                 (vol_In_dict {["A1" := "Paris Nord"]})] ∅),
       {| _api_token := Some (VStr "T");
          _stations := Some {["A1" := "Paris Nord"]};
          _update_interval := Some (VInt 600);
          unique_id := VNone; hass := [] |})
  ∧ size ({["A1" := "Paris Nord"]} : gmap string string) = 1%nat
  ∧ length [ {| sr_uid := "A1"; sr_name := "Paris Center" |};
             {| sr_uid := "A1"; sr_name := "Paris Nord" |} ] = 2%nat.
Proof. repeat split; vm_compute; reflexivity. Qed.

(** ** The feed path *)

Lemma user_feed_creates new_client ui self token sid interval d uid :
  ui !! CONF_API_TOKEN = Some token →
  ui !! CONF_STATION = Some sid →
  ui !! CONF_UPDATE_INTERVAL = Some interval →
  feed (new_client token) sid = Ret (PDict d) →
  d !! "uid" = Some uid →
  configured sid (hass self) = false →
  async_step_user_feed new_client (Some ui) self
    = (Ret (async_create_entry uid ∅
              (Some {[CONF_API_TOKEN := token; CONF_UPDATE_INTERVAL := interval]})),
       {| _api_token := _api_token self; _stations := _stations self;
          _update_interval := _update_interval self;
          unique_id := sid; hass := hass self |}).
Proof.
  intros Ht Hs Hi Hf Hu Hc. run.
  unfold async_set_unique_id, _abort_if_unique_id_configured. simpl.
  rewrite Ht, Hs, Hf. simpl.
  destruct sid; simpl; rewrite ?Hc; simpl; rewrite Hu; simpl; by rewrite Hi.
Qed.

Lemma validate_feed_submission token sid interval :
  validate user_feed_schema (feed_submission token sid interval)
    = Some (feed_input token sid (default DEFAULT_UPDATE_INTERVAL interval)).
Proof. destruct interval; vm_compute; reflexivity. Qed.

(** C7: a submission to the feed form for which the feed call returns a
    station carrying a "uid", for a station id that is not yet configured,
    creates a record titled with that uid, with empty data and with options
    holding the submitted token and the submitted interval, or 900 when the
    submission leaves the interval out. *)
Theorem feed_submission_creates_entry
    new_client self token sid interval d uid :
  feed (new_client (VStr token)) (VStr sid) = Ret (PDict d) →
  d !! "uid" = Some uid →
  VStr sid ∉ map entry_unique_id (hass self) →
  ∃ form,
    async_step_user_feed new_client None self = (Ret form, self)
    ∧ run_step (async_configure new_client form
                  (feed_submission token sid interval)) self
      = (Ret (async_create_entry uid ∅
                (Some {[CONF_API_TOKEN := VStr token;
                        CONF_UPDATE_INTERVAL :=
                          VInt (default 900 interval)]})),
         (hass self ++
          [ {| entry_unique_id := VStr sid; entry_title := uid;
               entry_data := ∅;
               entry_options :=
                 {[CONF_API_TOKEN := VStr token;
                   CONF_UPDATE_INTERVAL := VInt (default 900 interval)]} |} ])%list).
Proof.
  intros Hf Hu Hc. apply not_configured in Hc.
  eexists. split; [reflexivity|].
  unfold run_step, async_configure.
  rewrite validate_feed_submission.
  change (step_method new_client "user_feed")
    with (Some (async_step_user_feed new_client)).
  unfold handle_step.
  erewrite user_feed_creates; eauto; by destruct interval.
Qed.

Lemma feed_submission_creates_entry_witness :
  ∃ form,
    async_step_user_feed
      (client_returning [] (PDict {["uid" := VStr "5000"]})) None (new_flow [])
      = (Ret form, new_flow [])
    ∧ run_step (async_configure
                  (client_returning [] (PDict {["uid" := VStr "5000"]})) form
                  (feed_submission "T" "5000" None)) (new_flow [])
      = (Ret (async_create_entry (VStr "5000") ∅
                (Some {[CONF_API_TOKEN := VStr "T";
                        CONF_UPDATE_INTERVAL := VInt 900]})),
         [ {| entry_unique_id := VStr "5000"; entry_title := VStr "5000";
              entry_data := ∅;
              entry_options := {[CONF_API_TOKEN := VStr "T";
                                 CONF_UPDATE_INTERVAL := VInt 900]} |} ]).
Proof.
  apply (feed_submission_creates_entry
           (client_returning [] (PDict {["uid" := VStr "5000"]}))
           (new_flow []) "T" "5000" None {["uid" := VStr "5000"]} (VStr "5000"));
    [done|done|apply not_elem_of_nil].
Defined.

(** ** The entry step *)

Lemma validate_rejects_other_flow_type raw v :
  raw !! FLOW_TYPE = Some v →
  v ≠ VStr FLOW_SEARCH → v ≠ VStr FLOW_FEED →
  validate CONFIG_SCHEMA raw = None.
Proof.
  intros Hv Hs Hf. unfold validate. case_match; [|done].
  simpl. unfold validate_field. simpl. rewrite Hv.
  rewrite bool_decide_eq_false_2; [done|].
  intros Hin. apply elem_of_cons in Hin as [->|Hin]; [done|].
  apply elem_of_cons in Hin as [->|Hin]; [done|].
  by apply not_elem_of_nil in Hin.
Qed.

(** C8: submitting the entry step with the search choice leads to the search
    step (its blank form), submitting the feed choice leads to the feed step
    (its blank form); any other value of the choice is refused by the
    validation of the entry form, so that no step runs, and the entry step
    itself would only show the entry form again. *)
Theorem entry_step_transitions new_client self ui v :
  ui !! FLOW_TYPE = Some v →
  (v = VStr FLOW_SEARCH →
     async_step_user new_client (Some ui) self
       = async_step_user_search new_client None self
     ∧ async_step_user new_client (Some ui) self
       = (Ret (async_show_form "user_search" user_search_schema ∅), self))
  ∧ (v = VStr FLOW_FEED →
     async_step_user new_client (Some ui) self
       = async_step_user_feed new_client None self
     ∧ async_step_user new_client (Some ui) self
       = (Ret (async_show_form "user_feed" user_feed_schema ∅), self))
  ∧ (v ≠ VStr FLOW_SEARCH → v ≠ VStr FLOW_FEED →
     async_configure new_client (async_show_form "user" CONFIG_SCHEMA ∅) ui self
       = (Raise Invalid, self)
     ∧ async_step_user new_client (Some ui) self
       = (Ret (async_show_form "user" CONFIG_SCHEMA ∅), self)).
Proof.
  intros Hv. split; [|split].
  - intros ->. run. by rewrite Hv.
  - intros ->. run. by rewrite Hv.
  - intros Hs Hf. split.
    + unfold async_configure.
      by rewrite (validate_rejects_other_flow_type _ _ Hv Hs Hf).
    + run. rewrite Hv. simpl.
      by rewrite !bool_decide_eq_false_2.
Qed.

Lemma entry_step_transitions_witness :
  async_step_user (client_raising OverQuota)
      (Some {[FLOW_TYPE := VStr FLOW_SEARCH]}) (new_flow [])
    = (Ret (async_show_form "user_search" user_search_schema ∅), new_flow [])
  ∧ async_step_user (client_raising OverQuota)
      (Some {[FLOW_TYPE := VStr FLOW_FEED]}) (new_flow [])
    = (Ret (async_show_form "user_feed" user_feed_schema ∅), new_flow [])
  ∧ async_configure (client_raising OverQuota)
      (async_show_form "user" CONFIG_SCHEMA ∅)
      {[FLOW_TYPE := VStr "both"]} (new_flow [])
    = (Raise Invalid, new_flow []).
Proof.
  split; [|split].
  - apply (entry_step_transitions (client_raising OverQuota) (new_flow [])
             {[FLOW_TYPE := VStr FLOW_SEARCH]} (VStr FLOW_SEARCH)); done.
  - apply (entry_step_transitions (client_raising OverQuota) (new_flow [])
             {[FLOW_TYPE := VStr FLOW_FEED]} (VStr FLOW_FEED)); done.
  - apply (entry_step_transitions (client_raising OverQuota) (new_flow [])
             {[FLOW_TYPE := VStr "both"]} (VStr "both")); done.
Defined.

(** ** The options flow *)

(** C9: the options flow has one step.  Without input it shows the form
    "init", whose interval field defaults to the interval stored in the
    entry's options, or to 900 when none is stored, and whose token field has
    no default; with any input it returns a create-entry result with the empty
    title and the submitted dictionary as data, whatever the flow's entry.  A
    submission that passed the form's validation holds the token and the
    interval and nothing else. *)
Theorem options_flow_single_step self :
  (∃ interval_default,
     async_step_init self None
       = async_show_form "init"
           [ Field vol_Required CONF_API_TOKEN None vol_str;
             Field vol_Optional CONF_UPDATE_INTERVAL (Some interval_default)
               vol_int ] ∅
     ∧ (∀ stored,
          entry_options (_config_entry self) !! CONF_UPDATE_INTERVAL = Some stored →
          interval_default = stored)
     ∧ (entry_options (_config_entry self) !! CONF_UPDATE_INTERVAL = None →
          interval_default = VInt 900))
  ∧ (∀ user_input,
       async_step_init self (Some user_input)
         = async_create_entry (VStr "") user_input None)
  ∧ (∀ schema errors raw user_input,
       async_step_init self None = async_show_form "init" schema errors →
       validate schema raw = Some user_input →
       dom user_input = {[CONF_API_TOKEN; CONF_UPDATE_INTERVAL]}
       ∧ user_input !! CONF_API_TOKEN = raw !! CONF_API_TOKEN
       ∧ (∀ i, raw !! CONF_UPDATE_INTERVAL = Some i →
               user_input !! CONF_UPDATE_INTERVAL = Some i)).
Proof.
  split; [|split].
  - eexists. split; [reflexivity|]. split.
    + by intros stored ->.
    + by intros ->.
  - done.
  - intros schema errors raw user_input [= <- <-] Hv.
    unfold validate in Hv. case_match; [|done].
    simpl in Hv. unfold validate_field in Hv. simpl in Hv.
    destruct (raw !! CONF_API_TOKEN) as [t|] eqn:Ht; [|done].
    repeat case_match; simplify_eq; (split; [|split]);
      try (rewrite !dom_insert_L, dom_empty_L, union_empty_r_L;
           apply (comm_L (∪)));
      try (by rewrite lookup_insert_ne, lookup_insert_eq);
      intros; simplify_eq; by rewrite lookup_insert_eq.
Qed.

Lemma options_flow_single_step_witness :
  async_step_init {| _config_entry := entry_for "5000" |} None
    = async_show_form "init"
        [ Field vol_Required CONF_API_TOKEN None vol_str;
          Field vol_Optional CONF_UPDATE_INTERVAL (Some (VInt 900)) vol_int ] ∅
  ∧ async_step_init {| _config_entry := entry_for "5000" |}
      (Some {[CONF_API_TOKEN := VStr "T"; CONF_UPDATE_INTERVAL := VInt 600]})
    = async_create_entry (VStr "")
        {[CONF_API_TOKEN := VStr "T"; CONF_UPDATE_INTERVAL := VInt 600]} None.
Proof.
  destruct (options_flow_single_step {| _config_entry := entry_for "5000" |})
    as ((dflt & Hform & _ & Hnone) & Hsubmit & _).
  split; [|apply Hsubmit].
  rewrite Hform. by rewrite (Hnone eq_refl).
Defined.

(** ** Absent and empty input *)

(** C10: the search step answers an empty dictionary like an absent input,
    with its blank form (token and keyword without default, interval
    defaulting to 900).  The other steps treat every dictionary, the empty
    one included, as a submission: on the empty dictionary the entry step and
    the pick-station step fail on the missing key, the feed step aborts with
    "unknown" (the missing key is raised inside its [try]) and the options
    step creates its entry; on no dictionary do the pick-station and feed
    steps show a form, and the entry step shows its form only after reading a
    flow type that is neither choice. *)
Theorem falsy_input_handling new_client self options_flow :
  (async_step_user_search new_client (Some ∅) self
     = async_step_user_search new_client None self
   ∧ async_step_user_search new_client None self
     = (Ret (async_show_form "user_search"
               [ Field vol_Required CONF_API_TOKEN None vol_str;
                 Field vol_Required CONF_KEYWORD None vol_str;
                 Field vol_Optional CONF_UPDATE_INTERVAL (Some (VInt 900))
                   vol_int ] ∅), self))
  ∧ (async_step_user new_client (Some ∅) self
       = (Raise (KeyError (VStr FLOW_TYPE)), self)
     ∧ async_step_pick_station (Some ∅) self
       = (Raise (KeyError (VStr CONF_STATION)), self)
     ∧ async_step_user_feed new_client (Some ∅) self
       = (Ret (async_abort "unknown"), self)
     ∧ async_step_init options_flow (Some ∅)
       = async_create_entry (VStr "") ∅ None)
  ∧ (∀ ui,
       is_form (async_step_pick_station (Some ui) self).1 = false
       ∧ is_form (async_step_user_feed new_client (Some ui) self).1 = false
       ∧ is_form (Ret (async_step_init options_flow (Some ui))) = false
       ∧ (async_step_user new_client (Some ui) self
            = async_step_user new_client None self →
          ∃ v, ui !! FLOW_TYPE = Some v
               ∧ v ≠ VStr FLOW_SEARCH ∧ v ≠ VStr FLOW_FEED)).
Proof.
  split; [|split].
  - done.
  - done.
  - intros ui. split; [|split; [|split]].
    + crush.
    + crush.
    + done.
    + run. destruct (ui !! FLOW_TYPE) as [v|] eqn:Hv; simpl; [|done].
      intros Heq. exists v. split; [done|].
      split; intros ->; simpl in Heq; done.
Qed.

(** * Further properties of the steps *)

(** ** The station mapping built by the search step *)

(** X1: in the mapping built from the search results, a station id maps to
    the display name of the last result that carries it. *)
Theorem collect_stations_last_wins before st after :
  sr_uid st ∉ map sr_uid after →
  collect_stations (before ++ st :: after) !! sr_uid st = Some (sr_name st).
Proof.
  induction after as [|x after IH] using rev_ind; intros Hnot.
  - rewrite collect_stations_snoc. apply lookup_insert_eq.
  - rewrite map_app in Hnot. apply not_elem_of_app in Hnot as [Hafter Hx].
    change (before ++ st :: after ++ [x])%list
      with (before ++ (st :: after) ++ [x])%list.
    rewrite app_assoc, collect_stations_snoc.
    rewrite lookup_insert_ne; [by apply IH|].
    intros Heq. apply Hx. rewrite <- Heq. apply list_elem_of_here.
Qed.

Lemma collect_stations_last_wins_witness :
  collect_stations
    ([ {| sr_uid := "A1"; sr_name := "Paris Center" |} ]
       ++ {| sr_uid := "A1"; sr_name := "Paris Nord" |}
       :: [ {| sr_uid := "B2"; sr_name := "Lyon" |} ]) !! "A1"
    = Some "Paris Nord".
Proof.
  apply (collect_stations_last_wins
           [ {| sr_uid := "A1"; sr_name := "Paris Center" |} ]
           {| sr_uid := "A1"; sr_name := "Paris Nord" |}
           [ {| sr_uid := "B2"; sr_name := "Lyon" |} ]).
  simpl. intros Hin. apply list_elem_of_singleton in Hin. discriminate Hin.
Defined.

Lemma collect_stations_size_le found :
  (size (collect_stations found) ≤ length found)%nat.
Proof.
  induction found as [|x found IH] using rev_ind; [done|].
  rewrite collect_stations_snoc, length_app. simpl.
  destruct (collect_stations found !! sr_uid x) eqn:Hx.
  - rewrite map_size_insert_Some by done. lia.
  - rewrite map_size_insert_None by done. lia.
Qed.

(** X2: the mapping never has more entries than there are results, it is
    keyed by exactly the station ids that occur in the results, and it has as
    many entries as results exactly when no station id occurs twice. *)
Theorem collect_stations_entries found :
  (size (collect_stations found) ≤ length found)%nat
  ∧ (∀ sid, is_Some (collect_stations found !! sid) ↔ sid ∈ map sr_uid found)
  ∧ (size (collect_stations found) = length found ↔ NoDup (map sr_uid found)).
Proof.
  split; [apply collect_stations_size_le|]. split.
  - intros sid. rewrite <- elem_of_dom, collect_stations_dom.
    apply elem_of_list_to_set.
  - split; [|apply collect_stations_size].
    induction found as [|x found IH] using rev_ind; [intros _; apply NoDup_nil_2|].
    rewrite collect_stations_snoc, length_app, map_app. simpl.
    pose proof (collect_stations_size_le found) as Hle.
    destruct (collect_stations found !! sr_uid x) eqn:Hx.
    + rewrite map_size_insert_Some by done. lia.
    + rewrite map_size_insert_None by done. intros Hsize.
      apply NoDup_app. split; [apply IH; lia|]. split; [|apply NoDup_singleton].
      intros sid Hin Hin'. apply list_elem_of_singleton in Hin'. subst sid.
      assert (is_Some (collect_stations found !! sr_uid x)) as [? Hsome].
      { rewrite <- elem_of_dom, collect_stations_dom. by apply elem_of_list_to_set. }
      congruence.
Qed.

(** ** What the search step can return *)

(** X3: the search step hands over to the pick-station form only along one
    path: token, keyword and interval are in the submission and the search
    call returned at least one station.  The form then offers the collected
    mapping without error annotation, and the session holds the token, the
    interval and that mapping; the unique id and the registry are as
    before. *)
Theorem user_search_reaches_pick_station
    new_client input self schema errs self' :
  async_step_user_search new_client input self
    = (Ret (async_show_form "pick_station" schema errs), self') →
  ∃ ui token keyword interval found,
    input = Some ui
    ∧ ui !! CONF_API_TOKEN = Some token
    ∧ ui !! CONF_KEYWORD = Some keyword
    ∧ ui !! CONF_UPDATE_INTERVAL = Some interval
    ∧ search (new_client token) keyword = Ret found
    ∧ found ≠ []
    ∧ schema = [Field vol_Required CONF_STATION None
                  (vol_In_dict (collect_stations found))]
    ∧ errs = ∅
    ∧ self' = {| _api_token := Some token;
                 _stations := Some (collect_stations found);
                 _update_interval := Some interval;
                 unique_id := unique_id self; hass := hass self |}.
Proof.
  destruct input as [ui|]; [|done]. run.
  destruct (bool_decide (ui = ∅)); [done|].
  destruct (ui !! CONF_API_TOKEN) as [token|] eqn:Ht; simpl; [|done].
  destruct (ui !! CONF_KEYWORD) as [keyword|] eqn:Hk; simpl; [|done].
  destruct (search (new_client token) keyword) as [found|e] eqn:Hs; simpl.
  - destruct found as [|st found]; simpl; [done|].
    rewrite bool_decide_eq_true_2 by done. simpl.
    destruct (ui !! CONF_UPDATE_INTERVAL) as [interval|] eqn:Hi; simpl; [|done].
    intros [= <- <- <-]. by exists ui, token, keyword, interval, (st :: found).
  - destruct e; simpl; try done; by destruct (is_Exception _).
Qed.

Lemma user_search_reaches_pick_station_witness :
  ∃ ui token keyword interval found,
    Some (search_input "T" "paris" 600) = Some ui
    ∧ ui !! CONF_API_TOKEN = Some token
    ∧ ui !! CONF_KEYWORD = Some keyword
    ∧ ui !! CONF_UPDATE_INTERVAL = Some interval
    ∧ search (client_returning
                [ {| sr_uid := "A1"; sr_name := "Paris Center" |} ] (PVal VNone)
                token) keyword = Ret found
    ∧ found ≠ []
    ∧ [Field vol_Required CONF_STATION None
         (vol_In_dict {["A1" := "Paris Center"]})]
      = [Field vol_Required CONF_STATION None
           (vol_In_dict (collect_stations found))]
    ∧ (∅ : gmap string string) = ∅
    ∧ {| _api_token := Some (VStr "T");
         _stations := Some {["A1" := "Paris Center"]};
         _update_interval := Some (VInt 600);
         unique_id := VNone; hass := [] |}
      = {| _api_token := Some token;
           _stations := Some (collect_stations found);
           _update_interval := Some interval;
           unique_id := unique_id (new_flow []); hass := hass (new_flow []) |}.
Proof.
  apply (user_search_reaches_pick_station
           (client_returning
              [ {| sr_uid := "A1"; sr_name := "Paris Center" |} ] (PVal VNone))
           (Some (search_input "T" "paris" 600)) (new_flow [])).
  vm_compute. reflexivity.
Defined.

(** X4: the search step never raises UnboundLocalError, whatever the client
    does: its local [found] is read only when no error was recorded, and then
    the search call has returned. *)
Theorem user_search_never_unbound new_client input self name :
  (async_step_user_search new_client input self).1 ≠ Raise (UnboundLocalError name).
Proof.
  destruct input as [ui|]; [|done]. run.
  destruct (bool_decide (ui = ∅)); [done|].
  destruct (ui !! CONF_API_TOKEN) as [token|]; simpl; [|done].
  destruct (ui !! CONF_KEYWORD) as [keyword|]; simpl; [|done].
  destruct (search (new_client token) keyword) as [found|e]; simpl.
  - destruct found as [|st found]; simpl; [done|].
    rewrite bool_decide_eq_true_2 by done. simpl.
    by destruct (ui !! CONF_UPDATE_INTERVAL).
  - destruct e; simpl; done.
Qed.

(** ** Exceptions outside [Exception], and missing keys *)

(** X5: an exception of the client that is not an [Exception] (a
    cancellation, say) passes through the search step unchanged, while the
    feed step, whose last handler is a bare [except], turns it into an abort
    with reason "unknown". *)
Theorem base_exception_search_raises_feed_aborts
    new_client ui self token e :
  ui !! CONF_API_TOKEN = Some token →
  is_Exception e = false →
  (∀ keyword, ui !! CONF_KEYWORD = Some keyword →
     search (new_client token) keyword = Raise e →
     async_step_user_search new_client (Some ui) self = (Raise e, self))
  ∧ (∀ sid, ui !! CONF_STATION = Some sid →
     feed (new_client token) sid = Raise e →
     async_step_user_feed new_client (Some ui) self
       = (Ret (async_abort "unknown"), self)).
Proof.
  intros Ht He. split.
  - intros keyword Hk Hs.
    assert (ui ≠ ∅) as Hne by (intros ->; by rewrite lookup_empty in Ht).
    rewrite (user_search_raises _ _ self _ _ _ Hne Ht Hk Hs).
    rewrite He. by destruct e.
  - intros sid Hsid Hf.
    rewrite (user_feed_raises _ _ self _ _ _ Ht Hsid Hf). by destruct e.
Qed.

Lemma base_exception_search_raises_feed_aborts_witness :
  async_step_user_search (client_raising (OtherBaseException "CancelledError"))
      (Some (search_input "T" "paris" 600)) (new_flow [])
    = (Raise (OtherBaseException "CancelledError"), new_flow [])
  ∧ async_step_user_feed (client_raising (OtherBaseException "CancelledError"))
      (Some (feed_input "T" "5000" 900)) (new_flow [])
    = (Ret (async_abort "unknown"), new_flow []).
Proof.
  split.
  - destruct (base_exception_search_raises_feed_aborts
                (client_raising (OtherBaseException "CancelledError"))
                (search_input "T" "paris" 600) (new_flow []) (VStr "T")
                (OtherBaseException "CancelledError") eq_refl eq_refl)
      as [Hsearch _].
    by apply (Hsearch (VStr "paris")).
  - destruct (base_exception_search_raises_feed_aborts
                (client_raising (OtherBaseException "CancelledError"))
                (feed_input "T" "5000" 900) (new_flow []) (VStr "T")
                (OtherBaseException "CancelledError") eq_refl eq_refl)
      as [_ Hfeed].
    by apply (Hfeed (VStr "5000")).
Defined.

(** X6: a submission without the token or without the station makes the feed
    step abort with reason "unknown" (the KeyError is raised inside the
    [try] and caught by the bare [except]); the client's answer plays no
    part and the session is unchanged. *)
Theorem user_feed_missing_key_aborts new_client ui self :
  ui !! CONF_API_TOKEN = None ∨ ui !! CONF_STATION = None →
  async_step_user_feed new_client (Some ui) self
    = (Ret (async_abort "unknown"), self).
Proof.
  intros Hmiss. run.
  destruct (ui !! CONF_API_TOKEN) as [token|] eqn:Ht; simpl; [|done].
  destruct Hmiss as [Hmiss|Hmiss]; [done|]. by rewrite Hmiss.
Qed.

Lemma user_feed_missing_key_aborts_witness :
  async_step_user_feed (client_returning [] (PDict {["uid" := VStr "5000"]}))
      (Some {[CONF_API_TOKEN := VStr "T"]}) (new_flow [])
    = (Ret (async_abort "unknown"), new_flow []).
Proof.
  apply (user_feed_missing_key_aborts
           (client_returning [] (PDict {["uid" := VStr "5000"]}))
           {[CONF_API_TOKEN := VStr "T"]} (new_flow [])).
  by right.
Defined.

(** X7: a non-empty submission without the token or without the keyword
    makes the search step raise NameError: the KeyError is caught by
    [except Exception], whose handler names the unbound CONF_BASE.  The
    session is unchanged. *)
Theorem user_search_missing_key_name_error new_client ui self :
  ui ≠ ∅ →
  ui !! CONF_API_TOKEN = None ∨ ui !! CONF_KEYWORD = None →
  async_step_user_search new_client (Some ui) self
    = (Raise (NameError "CONF_BASE"), self).
Proof.
  intros Hne Hmiss. run. rewrite bool_decide_eq_false_2 by done.
  destruct (ui !! CONF_API_TOKEN) as [token|] eqn:Ht; simpl; [|done].
  destruct Hmiss as [Hmiss|Hmiss]; [done|]. by rewrite Hmiss.
Qed.

Lemma user_search_missing_key_name_error_witness :
  async_step_user_search (client_returning [] (PVal VNone))
      (Some {[CONF_API_TOKEN := VStr "T"]}) (new_flow [])
    = (Raise (NameError "CONF_BASE"), new_flow []).
Proof.
  apply (user_search_missing_key_name_error
           (client_returning [] (PVal VNone))
           {[CONF_API_TOKEN := VStr "T"]} (new_flow [])).
  - done.
  - by right.
Defined.

(** ** When a record is created *)

(** X8: for a submission holding token, station id and interval, the feed
    step creates a record exactly when the feed call returns a dictionary
    with a "uid" and the submitted station id is not yet configured. *)
Theorem user_feed_creates_exactly_when new_client ui self token sid interval :
  ui !! CONF_API_TOKEN = Some token →
  ui !! CONF_STATION = Some (VStr sid) →
  ui !! CONF_UPDATE_INTERVAL = Some interval →
  is_create_entry (async_step_user_feed new_client (Some ui) self).1 = true
  ↔ (∃ d uid, feed (new_client token) (VStr sid) = Ret (PDict d)
              ∧ d !! "uid" = Some uid)
    ∧ VStr sid ∉ map entry_unique_id (hass self).
Proof.
  intros Ht Hs Hi. split.
  - run. unfold async_set_unique_id, _abort_if_unique_id_configured. simpl.
    rewrite Ht, Hs. simpl.
    destruct (feed (new_client token) (VStr sid)) as [station|e] eqn:Hf; simpl.
    + destruct (configured (VStr sid) (hass self)) eqn:Hc; simpl; [done|].
      destruct station as [v|d]; simpl; [done|].
      destruct (d !! "uid") as [uid|] eqn:Hu; simpl; [|done].
      intros _. split; [by exists d, uid|].
      intros Hin. apply configured_elem_of in Hin. congruence.
    + by destruct e.
  - intros [(d & uid & Hf & Hu) Hc]. apply not_configured in Hc.
    by rewrite (user_feed_creates _ _ self _ _ _ _ _ Ht Hs Hi Hf Hu Hc).
Qed.

Lemma user_feed_creates_exactly_when_witness :
  is_create_entry
    (async_step_user_feed
       (client_returning [] (PDict {["uid" := VStr "5000"]}))
       (Some (feed_input "T" "5000" 900)) (new_flow [])).1 = true
  ∧ is_create_entry
      (async_step_user_feed
         (client_returning [] (PDict {["aqi" := VInt 42]}))
         (Some (feed_input "T" "5000" 900)) (new_flow [])).1 ≠ true.
Proof.
  split.
  - apply (user_feed_creates_exactly_when
             (client_returning [] (PDict {["uid" := VStr "5000"]}))
             (feed_input "T" "5000" 900) (new_flow []) (VStr "T") "5000"
             (VInt 900) eq_refl eq_refl eq_refl).
    split; [by exists {["uid" := VStr "5000"]}, (VStr "5000")|].
    apply not_elem_of_nil.
  - intros Hc.
    apply (user_feed_creates_exactly_when
             (client_returning [] (PDict {["aqi" := VInt 42]}))
             (feed_input "T" "5000" 900) (new_flow []) (VStr "T") "5000"
             (VInt 900) eq_refl eq_refl eq_refl) in Hc.
    destruct Hc as [(d & uid & Hf & Hu) _].
    injection Hf as <-. discriminate Hu.
Defined.

(** X9: for a submission selecting a station id, the pick-station step
    creates a record exactly when the session holds a mapping that contains
    the id, a token and an interval (that is, the search step has run), and
    the id is not yet configured. *)
Theorem pick_station_creates_exactly_when ui self sid :
  ui !! CONF_STATION = Some (VStr sid) →
  is_create_entry (async_step_pick_station (Some ui) self).1 = true
  ↔ (∃ stations, _stations self = Some stations ∧ is_Some (stations !! sid))
    ∧ is_Some (_api_token self)
    ∧ is_Some (_update_interval self)
    ∧ VStr sid ∉ map entry_unique_id (hass self).
Proof.
  intros Hs. split.
  - run. unfold async_set_unique_id, _abort_if_unique_id_configured,
      stations_getitem, getitem. simpl.
    rewrite Hs. simpl.
    destruct (configured (VStr sid) (hass self)) eqn:Hc; simpl; [done|].
    destruct (_stations self) as [stations|] eqn:Hst; simpl; [|done].
    destruct (stations !! sid) as [name|] eqn:Hn; simpl; [|done].
    destruct (_api_token self) as [token|] eqn:Ht; simpl; [|done].
    destruct (_update_interval self) as [interval|] eqn:Hi; simpl; [|done].
    intros _. split; [by exists stations; rewrite Hn|].
    split; [done|]. split; [done|].
    intros Hin. apply configured_elem_of in Hin. congruence.
  - intros [(stations & Hst & [name Hn]) ([token Ht] & [interval Hi] & Hc)].
    apply not_configured in Hc.
    by rewrite (pick_station_creates self ui sid name token interval stations).
Qed.

Lemma pick_station_creates_exactly_when_witness :
  is_create_entry
    (async_step_pick_station (Some {[CONF_STATION := VStr "A1"]})
       {| _api_token := Some (VStr "T");
          _stations := Some {["A1" := "Paris Center"]};
          _update_interval := Some (VInt 600);
          unique_id := VNone; hass := [] |}).1 = true
  ∧ is_create_entry
      (async_step_pick_station (Some {[CONF_STATION := VStr "A1"]})
         (new_flow [])).1 ≠ true.
Proof.
  split.
  - apply (pick_station_creates_exactly_when {[CONF_STATION := VStr "A1"]}
             {| _api_token := Some (VStr "T");
                _stations := Some {["A1" := "Paris Center"]};
                _update_interval := Some (VInt 600);
                unique_id := VNone; hass := [] |} "A1"); [done|].
    split; [by eexists; split; [reflexivity|eexists]|].
    split; [by eexists|]. split; [by eexists|]. apply not_elem_of_nil.
  - intros Hc.
    apply (pick_station_creates_exactly_when {[CONF_STATION := VStr "A1"]}
             (new_flow []) "A1") in Hc; [|done].
    destruct Hc as [(stations & Hst & _) _]. discriminate Hst.
Defined.

(** X10: the interval is read last.  A search submission without it, whose
    search found stations, raises KeyError after the mapping and the token
    were stored in the session (the stored interval is the old one); a feed
    submission without it, whose fetch succeeded for a new station, raises
    KeyError after the unique id was set.  Neither creates a record. *)
Theorem missing_interval_raises_late new_client ui self token :
  ui !! CONF_API_TOKEN = Some token →
  ui !! CONF_UPDATE_INTERVAL = None →
  (∀ keyword found,
     ui !! CONF_KEYWORD = Some keyword →
     search (new_client token) keyword = Ret found → found ≠ [] →
     async_step_user_search new_client (Some ui) self
       = (Raise (KeyError (VStr CONF_UPDATE_INTERVAL)),
          {| _api_token := Some token;
             _stations := Some (collect_stations found);
             _update_interval := _update_interval self;
             unique_id := unique_id self; hass := hass self |}))
  ∧ (∀ sid d uid,
     ui !! CONF_STATION = Some (VStr sid) →
     feed (new_client token) (VStr sid) = Ret (PDict d) →
     d !! "uid" = Some uid →
     VStr sid ∉ map entry_unique_id (hass self) →
     async_step_user_feed new_client (Some ui) self
       = (Raise (KeyError (VStr CONF_UPDATE_INTERVAL)),
          {| _api_token := _api_token self; _stations := _stations self;
             _update_interval := _update_interval self;
             unique_id := VStr sid; hass := hass self |})).
Proof.
  intros Ht Hi. split.
  - intros keyword found Hk Hs Hne. run.
    rewrite bool_decide_eq_false_2 by (intros ->; by rewrite lookup_empty in Ht).
    rewrite Ht, Hk, Hs. destruct found as [|st found]; [done|]. simpl.
    rewrite bool_decide_eq_true_2 by done. simpl. by rewrite Hi.
  - intros sid d uid Hs Hf Hu Hc. apply not_configured in Hc. run.
    unfold async_set_unique_id, _abort_if_unique_id_configured. simpl.
    rewrite Ht, Hs, Hf. simpl. rewrite Hc. simpl. rewrite Hu. simpl.
    by rewrite Hi.
Qed.

Lemma missing_interval_raises_late_witness :
  async_step_user_feed
      (client_returning [] (PDict {["uid" := VStr "5000"]}))
      (Some (feed_submission "T" "5000" None)) (new_flow [])
    = (Raise (KeyError (VStr CONF_UPDATE_INTERVAL)),
       {| _api_token := None; _stations := None; _update_interval := None;
          unique_id := VStr "5000"; hass := [] |}).
Proof.
  destruct (missing_interval_raises_late
              (client_returning [] (PDict {["uid" := VStr "5000"]}))
              (feed_submission "T" "5000" None) (new_flow []) (VStr "T")
              eq_refl eq_refl) as [_ Hfeed].
  apply (Hfeed "5000" {["uid" := VStr "5000"]} (VStr "5000"));
    [done|done|done|apply not_elem_of_nil].
Defined.

(** ** Submissions that passed the form's validation *)

Lemma validate_pick_station stations raw ui :
  validate [Field vol_Required CONF_STATION None (vol_In_dict stations)] raw
    = Some ui →
  ∃ sid, raw !! CONF_STATION = Some (VStr sid)
         ∧ is_Some (stations !! sid)
         ∧ ui = {[CONF_STATION := VStr sid]}.
Proof.
  unfold validate. case_match; [|done]. simpl. unfold validate_field. simpl.
  destruct (raw !! CONF_STATION) as [x|] eqn:Hx; [|done].
  destruct x as [| |z|sid]; simpl; try done.
  destruct (bool_decide (is_Some (stations !! sid))) eqn:Hin; [|done].
  apply bool_decide_eq_true in Hin. intros [= <-]. by exists sid.
Qed.

Lemma pick_station_aborts_configured self ui sid :
  ui !! CONF_STATION = Some (VStr sid) →
  configured (VStr sid) (hass self) = true →
  run_step (handle_step (async_step_pick_station (Some ui))) self
    = (Ret (async_abort "already_configured"), hass self).
Proof.
  intros Hs Hc. unfold run_step, handle_step. run.
  unfold async_set_unique_id, _abort_if_unique_id_configured. simpl.
  by rewrite Hs, Hc.
Qed.

Lemma user_feed_aborts_configured new_client self ui sid token station :
  ui !! CONF_API_TOKEN = Some token →
  ui !! CONF_STATION = Some (VStr sid) →
  feed (new_client token) (VStr sid) = Ret station →
  configured (VStr sid) (hass self) = true →
  run_step (handle_step (async_step_user_feed new_client (Some ui))) self
    = (Ret (async_abort "already_configured"), hass self).
Proof.
  intros Ht Hs Hf Hc. unfold run_step, handle_step. run.
  unfold async_set_unique_id, _abort_if_unique_id_configured. simpl.
  by rewrite Ht, Hs, Hf, Hc.
Qed.

(** X11: after a search that found stations, whatever is submitted to the
    pick-station form has one of three outcomes: the form's validation
    refuses it, the flow aborts because the selected station is already
    configured, or a record is created whose title is the name the mapping
    holds for the selected id.  The step does not fail on a missing key or on
    an unknown station. *)
Theorem pick_submission_after_search
    new_client self ui token keyword interval found :
  ui !! CONF_API_TOKEN = Some token →
  ui !! CONF_KEYWORD = Some keyword →
  ui !! CONF_UPDATE_INTERVAL = Some interval →
  search (new_client token) keyword = Ret found →
  found ≠ [] →
  ∃ form self',
    async_step_user_search new_client (Some ui) self = (Ret form, self')
    ∧ ∀ raw,
        (async_configure new_client form raw self').1 = Raise Invalid
        ∨ (∃ sid, raw !! CONF_STATION = Some (VStr sid)
                  ∧ VStr sid ∈ map entry_unique_id (hass self)
                  ∧ (async_configure new_client form raw self').1
                    = Ret (async_abort "already_configured"))
        ∨ (∃ sid name, raw !! CONF_STATION = Some (VStr sid)
                  ∧ collect_stations found !! sid = Some name
                  ∧ (VStr sid ∉ map entry_unique_id (hass self))
                  ∧ (async_configure new_client form raw self').1
                    = Ret (async_create_entry (VStr name) ∅
                             (Some {[CONF_API_TOKEN := token;
                                     CONF_UPDATE_INTERVAL := interval]}))).
Proof.
  intros Ht Hk Hi Hs Hne. eexists _, _.
  split; [by apply (user_search_found _ _ _ _ _ _ _ Ht Hk Hi Hs)|].
  intros raw. unfold async_configure.
  destruct (validate _ raw) as [ui'|] eqn:Hv; [|by left].
  apply validate_pick_station in Hv as (sid & Hraw & [name Hname] & ->).
  change (step_method new_client "pick_station")
    with (Some async_step_pick_station).
  right.
  destruct (configured (VStr sid) (hass self)) eqn:Hc.
  - left. exists sid. split; [done|]. split; [by apply configured_elem_of|].
    unfold handle_step. run.
    unfold async_set_unique_id, _abort_if_unique_id_configured. simpl.
    rewrite lookup_singleton_eq. simpl. by rewrite Hc.
  - right. exists sid, name. split; [done|]. split; [done|]. split.
    { intros Hin. apply configured_elem_of in Hin. congruence. }
    unfold handle_step.
    by erewrite (pick_station_creates _ _ sid name token interval).
Qed.

Lemma pick_submission_after_search_witness :
  ∃ form self',
    async_step_user_search
        (client_returning [ {| sr_uid := "A1"; sr_name := "Paris Center" |} ]
           (PVal VNone))
        (Some (search_input "T" "paris" 600)) (new_flow [])
      = (Ret form, self')
    ∧ (async_configure
         (client_returning [ {| sr_uid := "A1"; sr_name := "Paris Center" |} ]
            (PVal VNone))
         form {[CONF_STATION := VStr "Z9"]} self').1 = Raise Invalid.
Proof.
  destruct (pick_submission_after_search
              (client_returning
                 [ {| sr_uid := "A1"; sr_name := "Paris Center" |} ] (PVal VNone))
              (new_flow []) (search_input "T" "paris" 600)
              (VStr "T") (VStr "paris") (VInt 600)
              [ {| sr_uid := "A1"; sr_name := "Paris Center" |} ])
    as (form & self' & Hform & Hraw); try done.
  exists form, self'. split; [done|].
  destruct (Hraw {[CONF_STATION := VStr "Z9"]})
    as [Hinv | [(sid & _ & Hin & _) | (sid & name & Hsid & Hname & _)]].
  - done.
  - by apply not_elem_of_nil in Hin.
  - exfalso. rewrite lookup_singleton_eq in Hsid. injection Hsid as <-.
    vm_compute in Hname. discriminate Hname.
Defined.

(** X12: a submission that passed the validation of the entry form always
    leaves the entry step: it leads to the search form when the flow type is
    the search choice or was left out (the search choice is the default), and
    to the feed form when it is the feed choice. *)
Theorem entry_validated_submission_transitions new_client self raw ui :
  validate CONFIG_SCHEMA raw = Some ui →
  ((raw !! FLOW_TYPE = None ∨ raw !! FLOW_TYPE = Some (VStr FLOW_SEARCH))
   ∧ async_step_user new_client (Some ui) self
     = (Ret (async_show_form "user_search" user_search_schema ∅), self))
  ∨ (raw !! FLOW_TYPE = Some (VStr FLOW_FEED)
     ∧ async_step_user new_client (Some ui) self
       = (Ret (async_show_form "user_feed" user_feed_schema ∅), self)).
Proof.
  unfold validate. case_match; [|done]. simpl. unfold validate_field. simpl.
  destruct (raw !! FLOW_TYPE) as [x|] eqn:Hx.
  - destruct (bool_decide (x ∈ [VStr FLOW_SEARCH; VStr FLOW_FEED])) eqn:Hin;
      [|done].
    apply bool_decide_eq_true in Hin. intros [= <-].
    apply elem_of_cons in Hin as [->|Hin].
    + left. split; [by right|]. run. by rewrite lookup_insert_eq.
    + apply list_elem_of_singleton in Hin as ->.
      right. split; [done|]. run. by rewrite lookup_insert_eq.
  - intros [= <-]. left. split; [by left|]. done.
Qed.

Lemma entry_validated_submission_transitions_witness :
  async_step_user (client_raising OverQuota)
      (Some {[FLOW_TYPE := VStr FLOW_SEARCH]}) (new_flow [])
    = (Ret (async_show_form "user_search" user_search_schema ∅), new_flow []).
Proof.
  destruct (entry_validated_submission_transitions (client_raising OverQuota)
              (new_flow []) ∅ {[FLOW_TYPE := VStr FLOW_SEARCH]})
    as [[_ Hsearch] | [Hfeed _]].
  - reflexivity.
  - exact Hsearch.
  - discriminate Hfeed.
Defined.

(** ** Records created by the wizard *)

Lemma pick_station_created input self title data options self' :
  async_step_pick_station input self
    = (Ret (async_create_entry title data options), self') →
  ∃ ui sid token interval,
    input = Some ui ∧ ui !! CONF_STATION = Some (VStr sid)
    ∧ unique_id self' = VStr sid ∧ hass self' = hass self
    ∧ data = ∅
    ∧ options = Some {[CONF_API_TOKEN := token; CONF_UPDATE_INTERVAL := interval]}.
Proof.
  destruct input as [ui|]; [|crush].
  run. unfold async_set_unique_id, _abort_if_unique_id_configured,
    stations_getitem, getitem. simpl.
  destruct (ui !! CONF_STATION) as [x|] eqn:Hs; simpl; [|done].
  destruct x as [| |z|sid]; simpl;
    try (repeat (case_match; simplify_eq; simpl in * ); done).
  intros Heq. exists ui, sid.
  repeat (case_match; simplify_eq; simpl in * ). by eexists _, _.
Qed.

Lemma user_feed_created new_client input self title data options self' :
  async_step_user_feed new_client input self
    = (Ret (async_create_entry title data options), self') →
  ∃ ui sid token interval,
    input = Some ui ∧ ui !! CONF_STATION = Some sid
    ∧ unique_id self' = sid ∧ hass self' = hass self
    ∧ data = ∅
    ∧ options = Some {[CONF_API_TOKEN := token; CONF_UPDATE_INTERVAL := interval]}.
Proof.
  destruct input as [ui|]; [|crush].
  run. unfold async_set_unique_id, _abort_if_unique_id_configured. simpl.
  destruct (ui !! CONF_API_TOKEN) as [token|] eqn:Ht; simpl; [|done].
  destruct (ui !! CONF_STATION) as [sid|] eqn:Hs; simpl; [|done].
  intros Heq. exists ui, sid.
  repeat (case_match; unfold ret, raise in *; simplify_eq; simpl in * );
    by eexists _, _.
Qed.

Lemma wizard_created new_client step_id step input self title data options self' :
  step_method new_client step_id = Some step →
  step input self = (Ret (async_create_entry title data options), self') →
  ∃ ui sid token interval,
    input = Some ui ∧ ui !! CONF_STATION = Some sid
    ∧ unique_id self' = sid ∧ hass self' = hass self
    ∧ data = ∅
    ∧ options = Some {[CONF_API_TOKEN := token; CONF_UPDATE_INTERVAL := interval]}.
Proof.
  intros Hstep Heq. unfold step_method in Hstep.
  repeat case_match; simplify_eq.
  - pose proof (user_no_entry new_client input self) as H'. by rewrite Heq in H'.
  - pose proof (user_search_no_entry new_client input self) as H'.
    by rewrite Heq in H'.
  - apply pick_station_created in Heq
      as (ui & sid & token & interval & ? & ? & ? & ? & ? & ?).
    by exists ui, (VStr sid), token, interval.
  - by apply user_feed_created in Heq.
Qed.

(** X13: every record that a step of the wizard creates has empty data and
    options holding exactly the token and the interval, is registered under
    the station id that was submitted, and the options flow opened on it
    offers that interval as the default of its form. *)
Theorem wizard_record_feeds_options_form
    new_client step_id step input self title data options self' :
  step_method new_client step_id = Some step →
  step input self = (Ret (async_create_entry title data options), self') →
  ∃ ui sid token interval entry,
    input = Some ui ∧ ui !! CONF_STATION = Some sid
    ∧ async_finish_flow (Ret (async_create_entry title data options)) self'
      = (hass self ++ [entry])%list
    ∧ entry = {| entry_unique_id := sid; entry_title := title;
                 entry_data := ∅;
                 entry_options := {[CONF_API_TOKEN := token;
                                    CONF_UPDATE_INTERVAL := interval]} |}
    ∧ async_step_init (async_get_options_flow entry) None
      = async_show_form "init"
          [ Field vol_Required CONF_API_TOKEN None vol_str;
            Field vol_Optional CONF_UPDATE_INTERVAL (Some interval) vol_int ] ∅.
Proof.
  intros Hstep Heq.
  destruct (wizard_created _ _ _ _ _ _ _ _ _ Hstep Heq)
    as (ui & sid & token & interval & -> & Hs & Hid & Hh & -> & ->).
  exists ui, sid, token, interval. eexists. split; [done|]. split; [done|].
  split; [|split; [reflexivity|]].
  - simpl. by rewrite Hh, Hid.
  - reflexivity.
Qed.

Lemma wizard_record_feeds_options_form_witness :
  ∃ ui sid token interval entry,
    Some (feed_input "T" "5000" 600) = Some ui
    ∧ ui !! CONF_STATION = Some sid
    ∧ async_finish_flow
        (Ret (async_create_entry (VStr "5000") ∅
                (Some {[CONF_API_TOKEN := VStr "T";
                        CONF_UPDATE_INTERVAL := VInt 600]})))
        {| _api_token := None; _stations := None; _update_interval := None;
           unique_id := VStr "5000"; hass := [] |}
      = (hass (new_flow []) ++ [entry])%list
    ∧ entry = {| entry_unique_id := sid; entry_title := VStr "5000";
                 entry_data := ∅;
                 entry_options := {[CONF_API_TOKEN := token;
                                    CONF_UPDATE_INTERVAL := interval]} |}
    ∧ async_step_init (async_get_options_flow entry) None
      = async_show_form "init"
          [ Field vol_Required CONF_API_TOKEN None vol_str;
            Field vol_Optional CONF_UPDATE_INTERVAL (Some interval) vol_int ] ∅.
Proof.
  apply (wizard_record_feeds_options_form
           (client_returning [] (PDict {["uid" := VStr "5000"]}))
           "user_feed"
           (async_step_user_feed
              (client_returning [] (PDict {["uid" := VStr "5000"]})))
           (Some (feed_input "T" "5000" 600)) (new_flow [])).
  - reflexivity.
  - vm_compute. reflexivity.
Defined.

(** X14: once a step of the wizard has created a record for a station id,
    a later wizard run on the resulting registry aborts with
    "already_configured" for that id on both paths: when the id is picked
    after a search, and when it is entered in the feed form and fetched. *)
Theorem created_station_blocks_second_wizard
    new_client step_id step ui sid self title data options self' :
  step_method new_client step_id = Some step →
  ui !! CONF_STATION = Some (VStr sid) →
  step (Some ui) self = (Ret (async_create_entry title data options), self') →
  ∀ new_client2 self2 ui2,
    hass self2
      = async_finish_flow (Ret (async_create_entry title data options)) self' →
    ui2 !! CONF_STATION = Some (VStr sid) →
    run_step (handle_step (async_step_pick_station (Some ui2))) self2
      = (Ret (async_abort "already_configured"), hass self2)
    ∧ (∀ token station,
         ui2 !! CONF_API_TOKEN = Some token →
         feed (new_client2 token) (VStr sid) = Ret station →
         run_step (handle_step (async_step_user_feed new_client2 (Some ui2))) self2
           = (Ret (async_abort "already_configured"), hass self2)).
Proof.
  intros Hstep Hs Heq new_client2 self2 ui2 Hh Hs2.
  destruct (wizard_created _ _ _ _ _ _ _ _ _ Hstep Heq)
    as (ui' & sid' & token & interval & [= <-] & Hs' & Hid & _ & _ & _).
  rewrite Hs in Hs'. injection Hs' as <-.
  assert (configured (VStr sid) (hass self2) = true) as Hc.
  { apply configured_elem_of. rewrite Hh. simpl. rewrite map_app. simpl.
    rewrite Hid. apply elem_of_app. right. apply list_elem_of_here. }
  split.
  - by apply (pick_station_aborts_configured self2 ui2 sid).
  - intros token2 station Ht Hf.
    by apply (user_feed_aborts_configured _ self2 ui2 sid token2 station).
Qed.

Lemma created_station_blocks_second_wizard_witness :
  run_step (handle_step (async_step_pick_station
                           (Some {[CONF_STATION := VStr "5000"]})))
      (new_flow
         [ {| entry_unique_id := VStr "5000"; entry_title := VStr "5000";
              entry_data := ∅;
              entry_options := {[CONF_API_TOKEN := VStr "T";
                                 CONF_UPDATE_INTERVAL := VInt 600]} |} ])
    = (Ret (async_abort "already_configured"),
       [ {| entry_unique_id := VStr "5000"; entry_title := VStr "5000";
            entry_data := ∅;
            entry_options := {[CONF_API_TOKEN := VStr "T";
                               CONF_UPDATE_INTERVAL := VInt 600]} |} ]).
Proof.
  assert (async_step_user_feed
            (client_returning [] (PDict {["uid" := VStr "5000"]}))
            (Some (feed_input "T" "5000" 600)) (new_flow [])
          = (Ret (async_create_entry (VStr "5000") ∅
                    (Some {[CONF_API_TOKEN := VStr "T";
                            CONF_UPDATE_INTERVAL := VInt 600]})),
             {| _api_token := None; _stations := None; _update_interval := None;
                unique_id := VStr "5000"; hass := [] |})) as Hstep
    by (vm_compute; reflexivity).
  destruct (created_station_blocks_second_wizard
              (client_returning [] (PDict {["uid" := VStr "5000"]}))
              "user_feed" _ (feed_input "T" "5000" 600) "5000" (new_flow [])
              _ _ _ _ eq_refl eq_refl Hstep
              (client_returning [] (PVal VNone))
              (new_flow
                 [ {| entry_unique_id := VStr "5000"; entry_title := VStr "5000";
                      entry_data := ∅;
                      entry_options := {[CONF_API_TOKEN := VStr "T";
                                         CONF_UPDATE_INTERVAL := VInt 600]} |} ])
              {[CONF_STATION := VStr "5000"]})
    as [Hpick _]; [reflexivity | done | exact Hpick].
Defined.

Lemma user_feed_run_creates new_client ui self token sid interval d uid :
  ui !! CONF_API_TOKEN = Some token →
  ui !! CONF_STATION = Some sid →
  ui !! CONF_UPDATE_INTERVAL = Some interval →
  feed (new_client token) sid = Ret (PDict d) →
  d !! "uid" = Some uid →
  configured sid (hass self) = false →
  run_step (handle_step (async_step_user_feed new_client (Some ui))) self
    = (Ret (async_create_entry uid ∅
              (Some {[CONF_API_TOKEN := token; CONF_UPDATE_INTERVAL := interval]})),
       (hass self ++
        [ {| entry_unique_id := sid; entry_title := uid; entry_data := ∅;
             entry_options := {[CONF_API_TOKEN := token;
                                CONF_UPDATE_INTERVAL := interval]} |} ])%list).
Proof.
  intros Ht Hs Hi Hf Hu Hc. unfold run_step, handle_step.
  by rewrite (user_feed_creates _ _ self _ _ _ _ _ Ht Hs Hi Hf Hu Hc).
Qed.

(** X15: the feed path registers a record under the station id that was
    entered and titles it with the uid of the feed.  Two different entered
    ids whose feeds carry the same uid therefore give two records with the
    same title, one after the other. *)
Theorem feed_same_uid_two_records
    new_client self ui1 ui2 token1 token2 sid1 sid2 interval1 interval2 d uid :
  ui1 !! CONF_API_TOKEN = Some token1 →
  ui1 !! CONF_STATION = Some (VStr sid1) →
  ui1 !! CONF_UPDATE_INTERVAL = Some interval1 →
  ui2 !! CONF_API_TOKEN = Some token2 →
  ui2 !! CONF_STATION = Some (VStr sid2) →
  ui2 !! CONF_UPDATE_INTERVAL = Some interval2 →
  sid1 ≠ sid2 →
  feed (new_client token1) (VStr sid1) = Ret (PDict d) →
  feed (new_client token2) (VStr sid2) = Ret (PDict d) →
  d !! "uid" = Some uid →
  VStr sid1 ∉ map entry_unique_id (hass self) →
  VStr sid2 ∉ map entry_unique_id (hass self) →
  ∀ self2,
    hass self2
      = (run_step (handle_step (async_step_user_feed new_client (Some ui1)))
           self).2 →
    ∃ e1 e2,
      (run_step (handle_step (async_step_user_feed new_client (Some ui2)))
         self2).2 = (hass self ++ [e1; e2])%list
      ∧ entry_unique_id e1 = VStr sid1 ∧ entry_unique_id e2 = VStr sid2
      ∧ entry_title e1 = uid ∧ entry_title e2 = uid.
Proof.
  intros Ht1 Hs1 Hi1 Ht2 Hs2 Hi2 Hne Hf1 Hf2 Hu Hc1 Hc2 self2.
  apply not_configured in Hc1.
  rewrite (user_feed_run_creates _ _ self _ _ _ _ _ Ht1 Hs1 Hi1 Hf1 Hu Hc1).
  cbn [snd]. intros Hh.
  assert (configured (VStr sid2) (hass self2) = false) as Hc2'.
  { apply not_configured. rewrite Hh, map_app. simpl.
    intros [Hin|Hin]%elem_of_app; [done|].
    apply list_elem_of_singleton in Hin. congruence. }
  rewrite (user_feed_run_creates _ _ self2 _ _ _ _ _ Ht2 Hs2 Hi2 Hf2 Hu Hc2').
  cbn [snd]. eexists _, _. rewrite Hh, <- app_assoc. simpl. done.
Qed.

Lemma feed_same_uid_two_records_witness :
  ∃ e1 e2,
    (run_step (handle_step (async_step_user_feed
                 (client_returning [] (PDict {["uid" := VStr "5000"]}))
                 (Some (feed_input "T" "paris" 900))))
       (new_flow
          [ {| entry_unique_id := VStr "@5000"; entry_title := VStr "5000";
               entry_data := ∅;
               entry_options := {[CONF_API_TOKEN := VStr "T";
                                  CONF_UPDATE_INTERVAL := VInt 900]} |} ])).2
      = (hass (new_flow []) ++ [e1; e2])%list
    ∧ entry_unique_id e1 = VStr "@5000" ∧ entry_unique_id e2 = VStr "paris"
    ∧ entry_title e1 = VStr "5000" ∧ entry_title e2 = VStr "5000".
Proof.
  apply (feed_same_uid_two_records
           (client_returning [] (PDict {["uid" := VStr "5000"]}))
           (new_flow []) (feed_input "T" "@5000" 900)
           (feed_input "T" "paris" 900) (VStr "T") (VStr "T")
           "@5000" "paris" (VInt 900) (VInt 900)
           {["uid" := VStr "5000"]} (VStr "5000"));
    try done; try apply not_elem_of_nil.
Defined.

(** ** The forms that the steps show *)

Lemma user_form new_client input self sid schema errs self' :
  async_step_user new_client input self
    = (Ret (async_show_form sid schema errs), self') →
  sid ∈ ["user"; "user_search"; "user_feed"] ∧ errs = ∅.
Proof.
  crush; (split; [|done]);
    repeat first [apply list_elem_of_here | apply list_elem_of_further].
Qed.

Lemma pick_station_form input self sid schema errs self' :
  async_step_pick_station input self
    = (Ret (async_show_form sid schema errs), self') →
  sid = "pick_station" ∧ errs = ∅.
Proof. crush. Qed.

Lemma user_feed_form new_client input self sid schema errs self' :
  async_step_user_feed new_client input self
    = (Ret (async_show_form sid schema errs), self') →
  sid = "user_feed" ∧ errs = ∅.
Proof. crush. Qed.

Lemma user_search_form new_client input self sid schema errs self' :
  async_step_user_search new_client input self
    = (Ret (async_show_form sid schema errs), self') →
  sid = "user_search" ∨ sid = "pick_station".
Proof. crush; auto. Qed.

(** X16: every form that a step of the wizard shows names a step of the
    wizard, so the flow manager finds the method that handles its
    submission. *)
Theorem shown_forms_are_routable
    new_client step_id step input self sid schema errs self' :
  step_method new_client step_id = Some step →
  step input self = (Ret (async_show_form sid schema errs), self') →
  is_Some (step_method new_client sid).
Proof.
  intros Hstep Heq. unfold step_method in Hstep.
  repeat case_match; simplify_eq.
  - apply user_form in Heq as [Hin _].
    repeat (apply elem_of_cons in Hin as [->|Hin]; [by eexists|]).
    by apply not_elem_of_nil in Hin.
  - apply user_search_form in Heq as [-> | ->]; by eexists.
  - apply pick_station_form in Heq as [-> _]. by eexists.
  - apply user_feed_form in Heq as [-> _]. by eexists.
Qed.

Lemma shown_forms_are_routable_witness :
  async_step_user (client_raising OverQuota)
      (Some {[FLOW_TYPE := VStr FLOW_FEED]}) (new_flow [])
    = (Ret (async_show_form "user_feed" user_feed_schema ∅), new_flow [])
  ∧ is_Some (step_method (client_raising OverQuota) "user_feed").
Proof.
  split; [reflexivity|].
  apply (shown_forms_are_routable (client_raising OverQuota) "user"
           (async_step_user (client_raising OverQuota))
           (Some {[FLOW_TYPE := VStr FLOW_FEED]}) (new_flow [])
           "user_feed" user_feed_schema ∅ (new_flow []));
    reflexivity.
Defined.

(** X17: the entry, pick-station and feed steps never show a form with an
    error annotation: the first two never write to [errors], and the feed
    step shows its form only when nothing was submitted. *)
Theorem forms_without_errors new_client input self sid schema errs self' :
  async_step_user new_client input self
    = (Ret (async_show_form sid schema errs), self')
  ∨ async_step_pick_station input self
    = (Ret (async_show_form sid schema errs), self')
  ∨ async_step_user_feed new_client input self
    = (Ret (async_show_form sid schema errs), self') →
  errs = ∅.
Proof.
  intros [Heq | [Heq | Heq]].
  - by apply user_form in Heq as [_ ->].
  - by apply pick_station_form in Heq as [_ ->].
  - by apply user_feed_form in Heq as [_ ->].
Qed.

Lemma forms_without_errors_witness :
  async_step_user_feed (client_raising OverQuota) None (new_flow [])
    = (Ret (async_show_form "user_feed" user_feed_schema ∅), new_flow [])
  ∧ (∅ : gmap string string) = ∅.
Proof.
  split; [reflexivity|].
  apply (forms_without_errors (client_raising OverQuota) None (new_flow [])
           "user_feed" user_feed_schema ∅ (new_flow [])).
  right. right. reflexivity.
Defined.
